(** * Position ledger and Trader orchestrator of nautilus_trader

    A shallow embedding of [nautilus_trader/trading/trader.pyx] and of the
    position ledger declared in [nautilus_trader/model/position.pxd].

    Python objects are mutable and shared by reference, so the orchestrator
    is modelled over an explicit store: actors and strategies live in a heap
    addressed by references, the registries of the [Trader] hold references,
    and every method is a computation in a state-and-exception monad that
    hands back the store even when it raises. *)

From Stdlib Require Import List String Bool Arith Lia Permutation Sorted.
From Stdlib Require Import QArith Qabs OrderedTypeEx.
Import ListNotations.

Local Open Scope string_scope.
Local Open Scope nat_scope.
Local Open Scope list_scope.

(* ================================================================== *)
(** * Model: the position ledger ([model/position.pxd])                *)
(* ================================================================== *)

Module Model.

Local Open Scope Q_scope.

Definition Currency := string.
Definition InstrumentId := string.
Definition ExecutionId := string.
Definition ClientOrderId := string.
Definition PositionId := string.
Definition StrategyId := string.
Definition AccountId := string.

Inductive OrderSide : Type := BUY | SELL.

Inductive PositionSide : Type := FLAT | LONG | SHORT.

(** [Decimal], [Price] and [Quantity] values are exact rationals. *)
Record Money : Type := mkMoney {
  amount : Q;
  currency : Currency
}.

Module Fill.

(** Modelled from the spec: the fill event (section 3); [OrderFilled] is not
    part of the sources. *)
Record OrderFilled : Type := mk {
  instrument_id : InstrumentId;
  side : OrderSide;
  qty : Q;
  price : Q;
  commission : Money;
  execution_id : ExecutionId;
  order_id : ClientOrderId;
  ts : Z
}.

End Fill.

(** The attributes of [cdef class Position], as [position.pxd] declares
    them.  [ts_closed = 0] is the unset timestamp; [_commissions] is the
    dict keyed by currency. *)
Record Position : Type := mkPosition {
  _events : list Fill.OrderFilled;
  _execution_ids : list ExecutionId;
  _buy_qty : Q;
  _sell_qty : Q;
  _commissions : list (Currency * Q);
  trader_id : string;
  strategy_id : StrategyId;
  instrument_id : InstrumentId;
  id : PositionId;
  account_id : AccountId;
  from_order : ClientOrderId;
  entry : OrderSide;
  side : PositionSide;
  net_qty : Q;
  quantity : Q;
  peak_qty : Q;
  price_precision : nat;
  size_precision : nat;
  multiplier : Q;
  is_inverse : bool;
  quote_currency : Currency;
  base_currency : option Currency;
  cost_currency : Currency;
  ts_init : Z;
  ts_opened : Z;
  ts_last : Z;
  ts_closed : Z;
  duration_ns : Z;
  avg_px_open : Q;
  avg_px_close : option Q;
  realized_points : Q;
  realized_return : Q;
  realized_pnl : Money
}.

(** Modelled from the spec: the error [apply] raises on a violated
    precondition (sections 4.1 and 7). *)
Inductive Exn : Type := DataIntegrityError.

(** How a call ends: normally, or by raising. *)
Inductive Outcome : Type := Done | Raise (e : Exn).

Definition Qmin (a b : Q) : Q := if Qle_bool a b then a else b.
Definition Qmax (a b : Q) : Q := if Qle_bool a b then b else a.
Definition Qlt_bool (a b : Q) : bool := negb (Qle_bool b a).

(** Modelled from the spec: the result is "sign-adjusted for SHORT
    (negate)" (section 4.1). *)
Definition sign_adjust (s : PositionSide) (x : Q) : Q :=
  match s with
  | SHORT => - x
  | _ => x
  end.

(** Modelled from the spec: the price term of a standard contract,
    [avg_close - avg_open], sign-adjusted; the body of [_calculate_points]
    is not part of the sources. *)
Definition _calculate_points (self : Position) (avg_px_open avg_px_close : Q) : Q :=
  sign_adjust (side self) (avg_px_close - avg_px_open).

(** Modelled from the spec: the reciprocal price term of an inverse
    contract, [1/avg_open - 1/avg_close], sign-adjusted. *)
Definition _calculate_points_inverse (self : Position)
    (avg_px_open avg_px_close : Q) : Q :=
  sign_adjust (side self) (1 / avg_px_open - 1 / avg_px_close).

(** Modelled from the spec: [(avg_close - avg_open) * qty * multiplier] for
    a standard contract, [qty * multiplier * (1/avg_open - 1/avg_close)] for
    an inverse one (section 4.1). *)
Definition _calculate_pnl (self : Position)
    (avg_px_open avg_px_close quantity : Q) : Q :=
  if is_inverse self
  then quantity * multiplier self
       * _calculate_points_inverse self avg_px_open avg_px_close
  else _calculate_points self avg_px_open avg_px_close
       * quantity * multiplier self.

(** Modelled from the spec: [calculate_pnl], whose body is not part of the
    sources, returns the PnL as Money in [cost_currency] (section 4.1). *)
Definition calculate_pnl (self : Position)
    (avg_px_open avg_px_close quantity : Q) : Money :=
  mkMoney (_calculate_pnl self avg_px_open avg_px_close quantity)
          (cost_currency self).

Section Ledger.

(** The spec names [realized_return] without a formula; the helper
    [_calculate_return(avg_px_open, avg_px_close)] that [position.pxd]
    declares is taken as given. *)
Variable _calculate_return : Position -> Q -> Q -> Q.

(** Modelled from the spec: [is_opposite_side], declared in [position.pxd];
    a fill opposes the current side when it sells out of a LONG or buys
    back a SHORT. *)
Definition is_opposite_side (self : Position) (s : OrderSide) : bool :=
  match side self, s with
  | LONG, SELL | SHORT, BUY => true
  | _, _ => false
  end.

(** [x in l] on identifiers. *)
Fixpoint mem_id (x : string) (l : list string) : bool :=
  match l with
  | [] => false
  | y :: l' => String.eqb y x || mem_id x l'
  end.

(** Modelled from the spec: the commission is added to the per-currency
    mapping, summed by currency (section 4.1). *)
Fixpoint add_commission (c : Money) (m : list (Currency * Q)) : list (Currency * Q) :=
  match m with
  | [] => [(currency c, amount c)]
  | (k, v) :: m' =>
      if String.eqb k (currency c) then (k, v + amount c) :: m'
      else (k, v) :: add_commission c m'
  end.

(** Modelled from the spec: the quantity-weighted mean of [avg_px]
    (weight [qty]) and the price [px] (weight [new_qty]); the body of
    [_calculate_avg_px] is not part of the sources. *)
Definition weighted_mean (avg_px qty px new_qty : Q) : Q :=
  (avg_px * qty + px * new_qty) / (qty + new_qty).

(** Modelled from the spec: LONG if [net_qty > 0], SHORT if [net_qty < 0],
    else FLAT (section 3). *)
Definition side_of_net_qty (n : Q) : PositionSide :=
  if Qlt_bool 0 n then LONG else if Qlt_bool n 0 then SHORT else FLAT.

(** Modelled from the spec: [apply(fill)] (section 4.1); the body of
    [Position.apply] is not part of the sources.  The precondition is
    checked before anything is written.  The fill is split into the closing
    portion, [min(quantity, fill.qty)] when the fill opposes the side, and
    the opening remainder.  The closing portion realizes PnL against
    [avg_px_open]; the opening portion moves [avg_px_open] to the weighted
    mean with the quantity left open, which is the fill price on a flip.
    [ts_closed], [realized_points] (the price term the PnL is computed
    from) and [realized_return] are set when the position ends flat; a flip
    clears [avg_px_close] and leaves [ts_closed] unset (section 8). *)
Definition apply (self : Position) (fill : Fill.OrderFilled) : Position * Outcome :=
  if negb (String.eqb (Fill.instrument_id fill) (instrument_id self))
     || mem_id (Fill.execution_id fill) (_execution_ids self)
  then (self, Raise DataIntegrityError)
  else
    let opposes := is_opposite_side self (Fill.side fill) in
    let closing_qty :=
      if opposes then Qmin (quantity self) (Fill.qty fill) else 0 in
    let opening_qty := Fill.qty fill - closing_qty in
    let closes := Qlt_bool 0 closing_qty in
    let opens := Qlt_bool 0 opening_qty in
    let flips := closes && opens in
    let left_open := quantity self - closing_qty in
    let realized :=
      if closes
      then amount (realized_pnl self)
           + amount (calculate_pnl self (avg_px_open self) (Fill.price fill)
                                   closing_qty)
      else amount (realized_pnl self) in
    let px_open :=
      if opens
      then weighted_mean (avg_px_open self) left_open (Fill.price fill) opening_qty
      else avg_px_open self in
    let px_close :=
      if flips then None
      else if closes then
        Some (match avg_px_close self with
              | None => Fill.price fill
              | Some px =>
                  let closed_before :=
                    match side self with
                    | LONG => _sell_qty self
                    | _ => _buy_qty self
                    end in
                  weighted_mean px closed_before (Fill.price fill) closing_qty
              end)
      else avg_px_close self in
    let buy_qty :=
      match Fill.side fill with
      | BUY => _buy_qty self + Fill.qty fill
      | SELL => _buy_qty self
      end in
    let sell_qty :=
      match Fill.side fill with
      | BUY => _sell_qty self
      | SELL => _sell_qty self + Fill.qty fill
      end in
    let net := buy_qty - sell_qty in
    let qty' := Qabs net in
    let ends_flat := closes && negb opens && Qeq_bool left_open 0 in
    (mkPosition
       (_events self ++ [fill])
       (_execution_ids self ++ [Fill.execution_id fill])
       buy_qty sell_qty
       (add_commission (Fill.commission fill) (_commissions self))
       (trader_id self) (strategy_id self) (instrument_id self) (id self)
       (account_id self) (from_order self) (entry self)
       (side_of_net_qty net) net qty' (Qmax (peak_qty self) qty')
       (price_precision self) (size_precision self) (multiplier self)
       (is_inverse self) (quote_currency self) (base_currency self)
       (cost_currency self) (ts_init self) (ts_opened self)
       (Fill.ts fill)
       (if ends_flat then Fill.ts fill else if flips then 0%Z else ts_closed self)
       (if ends_flat then (Fill.ts fill - ts_opened self)%Z else duration_ns self)
       px_open px_close
       (if ends_flat
        then (if is_inverse self
              then _calculate_points_inverse self (avg_px_open self) (Fill.price fill)
              else _calculate_points self (avg_px_open self) (Fill.price fill))
        else realized_points self)
       (if ends_flat
        then _calculate_return self (avg_px_open self) (Fill.price fill)
        else realized_return self)
       (mkMoney realized (currency (realized_pnl self))),
     Done).

(** Modelled from the spec: [unrealized_pnl(last)] is [calculate_pnl] on
    the open quantity, zero when nothing is open. *)
Definition unrealized_pnl (self : Position) (last : Q) : Money :=
  if Qeq_bool (quantity self) 0
  then mkMoney 0 (cost_currency self)
  else calculate_pnl self (avg_px_open self) last (quantity self).

(** Modelled from the spec: [total_pnl(last)] is the realized PnL plus
    [unrealized_pnl(last)]. *)
Definition total_pnl (self : Position) (last : Q) : Money :=
  mkMoney (amount (realized_pnl self) + amount (unrealized_pnl self last))
          (cost_currency self).

End Ledger.

End Model.

(* ================================================================== *)
(** * Python dicts with string keys                                    *)
(* ================================================================== *)

Module Dict.

(** A dict as the list of its items in insertion order; a key occurs at
    most once in a dict built with [set]. *)
Definition dict (V : Type) : Type := list (string * V).

(** [d[k] = v]: an existing key keeps its place and takes the new value, a
    new key goes to the end. *)
Fixpoint set {V : Type} (k : string) (v : V) (d : dict V) : dict V :=
  match d with
  | [] => [(k, v)]
  | (k', v') :: d' =>
      if String.eqb k' k then (k', v) :: d' else (k', v') :: set k v d'
  end.

(** [d.get(k)] *)
Fixpoint get {V : Type} (k : string) (d : dict V) : option V :=
  match d with
  | [] => None
  | (k', v') :: d' => if String.eqb k' k then Some v' else get k d'
  end.

Definition keys {V : Type} (d : dict V) : list string := map fst d.

End Dict.

(* ================================================================== *)
(** * Trading: the Trader orchestrator ([trading/trader.pyx])          *)
(* ================================================================== *)

Module Trading.

(** Object references.  Every Python object the orchestrator touches (units,
    clocks, the shared services) is named by its address. *)
Definition Ref := nat.

Definition TraderId := string.
Definition ComponentId := string.
Definition Venue := string.

(** Modelled from the spec: the lifecycle states of the component state
    machine (section 4.2); [nautilus_trader.common.component] is not part of
    the sources. *)
Inductive ComponentState : Type :=
| PRE_INITIALIZED
| INITIALIZED
| STARTING
| RUNNING
| STOPPING
| STOPPED
| RESETTING
| DISPOSED.

Definition ComponentState_eqb (a b : ComponentState) : bool :=
  match a, b with
  | PRE_INITIALIZED, PRE_INITIALIZED | INITIALIZED, INITIALIZED
  | STARTING, STARTING | RUNNING, RUNNING | STOPPING, STOPPING
  | STOPPED, STOPPED | RESETTING, RESETTING | DISPOSED, DISPOSED => true
  | _, _ => false
  end.

(** The four lifecycle verbs; each one has an overridable hook. *)
Inductive Verb : Type := START | STOP | RESET | DISPOSE.

(** Modelled from the spec: a logger, from which a child logger can be
    obtained (section 6). *)
Inductive Logger : Type :=
| RootLogger (name : string)
| ChildLogger (parent : Logger).

Inductive ClockClass : Type := TestClock | LiveClock.

(** ** Components (actors and strategies) *)

Module Component.

(** Modelled from the spec: one actor or strategy object (section 3);
    [Actor] and [TradingStrategy] are not part of the sources.  The wiring
    fields are the keyword arguments of [register] / [register_base] in
    [trader.pyx]; [hook_raises v] tells whether the user-defined hook of
    verb [v] raises when it runs. *)
Record Component : Type := mk {
  id : ComponentId;
  state : ComponentState;
  trader_id : option TraderId;
  portfolio : option Ref;
  msgbus : option Ref;
  cache : option Ref;
  clock : option Ref;
  logger : option Logger;
  hook_raises : Verb -> bool
}.

Definition with_state (st : ComponentState) (c : Component) : Component :=
  mk (id c) st (trader_id c) (portfolio c) (msgbus c) (cache c) (clock c)
     (logger c) (hook_raises c).

End Component.

(** ** Log records and the trace of calls on collaborators *)

Inductive LogLevel : Type := INFO | WARNING | ERROR.

(** A log message: a literal, an f-string formatting one object, or the
    report of a lifecycle verb refused in some state. *)
Inductive Msg : Type :=
| Lit (text : string)
| Fmt (pre : string) (obj : Ref) (post : string)
| Refused (v : Verb) (st : ComponentState).

(** Whose logger wrote the record. *)
Inductive Origin : Type := ByTrader | ByUnit (r : Ref).

Inductive Event : Type :=
| EvLog (o : Origin) (lvl : LogLevel) (m : Msg)
| EvCall (r : Ref) (v : Verb)          (* r.start() / stop() / reset() / dispose() *)
| EvHook (r : Ref) (v : Verb)          (* the overridable hook of r ran *)
| EvRegisterOmsType (engine r : Ref)   (* exec_engine.register_oms_type(r) *)
| EvPortfolioReset (p : Ref)           (* portfolio.reset() *)
| EvAnalyzerReset (a : Ref).           (* analyzer.reset() *)

Inductive Exn : Type :=
| KeyError (item_name collection_name : string)
| ValueError (msg : string)
| HookError (r : Ref) (v : Verb).

Inductive Outcome (A : Type) : Type :=
| Return (a : A)
| Raise (e : Exn).

Arguments Return {A} a.
Arguments Raise {A} e.

(** ** External collaborators

    The report provider, the Cache contents and the internal state of the
    Portfolio and of the PortfolioAnalyzer are not part of the sources; the
    orchestrator is parametric in them. *)

Class Collaborators : Type := {
  Order : Type;
  PositionRecord : Type;
  Account : Type;
  DataFrame : Type;
  (** [pd.DataFrame()] *)
  empty_DataFrame : DataFrame;
  ReportProvider_generate_orders_report : list Order -> DataFrame;
  ReportProvider_generate_order_fills_report : list Order -> DataFrame;
  ReportProvider_generate_positions_report : list PositionRecord -> DataFrame;
  ReportProvider_generate_account_report : Account -> DataFrame;
  PortfolioState : Type;
  Portfolio_reset : PortfolioState -> PortfolioState;
  AnalyzerState : Type;
  PortfolioAnalyzer_reset : AnalyzerState -> AnalyzerState
}.

Section Orchestrator.

Context {ext : Collaborators}.

(** Modelled from the spec: the Cache is queried through [orders()],
    [positions()] and [account_for_venue(venue)] (section 6). *)
Record Cache : Type := mkCache {
  cache_orders : list Order;
  cache_positions : list PositionRecord;
  cache_accounts : list (Venue * Account)
}.

(** The fields of the [Trader] object set by [__init__]. *)
Record Trader : Type := mkTrader {
  id : TraderId;
  state : ComponentState;
  _clock : Ref;
  _log : Logger;
  _msgbus : Ref;
  _cache : Ref;
  _portfolio : Ref;
  _data_engine : Ref;
  _risk_engine : Ref;
  _exec_engine : Ref;
  _actors : list Ref;
  _strategies : list Ref;
  analyzer : Ref
}.

(** The store. *)
Record World : Type := mkWorld {
  self : Trader;
  units : Ref -> Component.Component;
  clock_class : Ref -> ClockClass;
  next_ref : Ref;
  cache_data : Cache;
  portfolio_state : PortfolioState;
  analyzer_state : AnalyzerState;
  trace : list Event
}.

Definition with_self (t : Trader) (w : World) : World :=
  mkWorld t (units w) (clock_class w) (next_ref w) (cache_data w)
          (portfolio_state w) (analyzer_state w) (trace w).

Definition with_units (u : Ref -> Component.Component) (w : World) : World :=
  mkWorld (self w) u (clock_class w) (next_ref w) (cache_data w)
          (portfolio_state w) (analyzer_state w) (trace w).

Definition with_trace (tr : list Event) (w : World) : World :=
  mkWorld (self w) (units w) (clock_class w) (next_ref w) (cache_data w)
          (portfolio_state w) (analyzer_state w) tr.

Definition with_portfolio_state (p : PortfolioState) (w : World) : World :=
  mkWorld (self w) (units w) (clock_class w) (next_ref w) (cache_data w)
          p (analyzer_state w) (trace w).

Definition with_analyzer_state (a : AnalyzerState) (w : World) : World :=
  mkWorld (self w) (units w) (clock_class w) (next_ref w) (cache_data w)
          (portfolio_state w) a (trace w).

Definition with_actors (l : list Ref) (t : Trader) : Trader :=
  mkTrader (id t) (state t) (_clock t) (_log t) (_msgbus t) (_cache t)
           (_portfolio t) (_data_engine t) (_risk_engine t) (_exec_engine t)
           l (_strategies t) (analyzer t).

Definition with_strategies (l : list Ref) (t : Trader) : Trader :=
  mkTrader (id t) (state t) (_clock t) (_log t) (_msgbus t) (_cache t)
           (_portfolio t) (_data_engine t) (_risk_engine t) (_exec_engine t)
           (_actors t) l (analyzer t).

Definition upd {A : Type} (f : Ref -> A) (r : Ref) (a : A) : Ref -> A :=
  fun r' => if Nat.eqb r' r then a else f r'.

(** ** The monad: state passing, and exceptions that keep the state *)

Definition M (A : Type) : Type := World -> World * Outcome A.

Definition ret {A : Type} (a : A) : M A := fun w => (w, Return a).

Definition bind {A B : Type} (m : M A) (k : A -> M B) : M B :=
  fun w =>
    match m w with
    | (w', Return a) => k a w'
    | (w', Raise e) => (w', Raise e)
    end.

Definition raise {A : Type} (e : Exn) : M A := fun w => (w, Raise e).

Definition gets {A : Type} (f : World -> A) : M A := fun w => (w, Return (f w)).

Definition modify (f : World -> World) : M unit := fun w => (f w, Return tt).

Notation "x <- c1 ;; c2" := (bind c1 (fun x => c2))
  (at level 61, c1 at next level, right associativity).
Notation "c1 ;; c2" := (bind c1 (fun _ => c2))
  (at level 61, right associativity).

(** [for x in xs: body(x)] *)
Fixpoint for_each {A : Type} (xs : list A) (body : A -> M unit) : M unit :=
  match xs with
  | [] => ret tt
  | x :: xs' => body x ;; for_each xs' body
  end.

Definition emit (e : Event) : M unit :=
  modify (fun w => with_trace (trace w ++ [e]) w).

Definition log (o : Origin) (lvl : LogLevel) (m : Msg) : M unit :=
  emit (EvLog o lvl m).

(** ** Component behaviour used by the Trader *)

(** Modelled from the spec: [is_running_c] of the missing [Component] base
    class tests the lifecycle state for RUNNING. *)
Definition is_running_c (r : Ref) : M bool :=
  gets (fun w => ComponentState_eqb (Component.state (units w r)) RUNNING).

(** Modelled from the spec: [is_disposed_c] of the missing [Component] base
    class tests the lifecycle state for DISPOSED. *)
Definition is_disposed_c (r : Ref) : M bool :=
  gets (fun w => ComponentState_eqb (Component.state (units w r)) DISPOSED).

(** Modelled from the spec: a lifecycle transition of unit [r]. *)
Definition set_state (r : Ref) (st : ComponentState) : M unit :=
  modify (fun w => with_units (upd (units w) r (Component.with_state st (units w r))) w).

(** Modelled from the spec: runs the overridable hook of verb [v] on unit
    [r]; a hook that raises propagates to the caller uncaught (section
    4.2). *)
Definition run_hook (r : Ref) (v : Verb) : M unit :=
  emit (EvHook r v) ;;
  raises <- gets (fun w => Component.hook_raises (units w r) v) ;;
  if raises then raise (HookError r v) else ret tt.

(** Modelled from the spec: [Component.start()] (section 4.2).  The verb
    drives INITIALIZED through STARTING to RUNNING and invokes its hook; on
    a running component it is a no-op logged as informational; any other
    call the state chain does not allow is logged and ignored (section 7,
    StateError). *)
Definition Component_start (r : Ref) : M unit :=
  emit (EvCall r START) ;;
  st <- gets (fun w => Component.state (units w r)) ;;
  match st with
  | RUNNING => log (ByUnit r) INFO (Refused START st)
  | INITIALIZED =>
      set_state r STARTING ;; run_hook r START ;; set_state r RUNNING
  | _ => log (ByUnit r) ERROR (Refused START st)
  end.

(** Modelled from the spec: [Component.stop()] (section 4.2).  The verb
    drives RUNNING through STOPPING to STOPPED and invokes its hook; on a
    component that is not running it is a no-op logged as a warning. *)
Definition Component_stop (r : Ref) : M unit :=
  emit (EvCall r STOP) ;;
  st <- gets (fun w => Component.state (units w r)) ;;
  match st with
  | RUNNING =>
      set_state r STOPPING ;; run_hook r STOP ;; set_state r STOPPED
  | _ => log (ByUnit r) WARNING (Refused STOP st)
  end.

(** Modelled from the spec: [Component.reset()] (section 4.2).  The verb
    drives STOPPED through RESETTING to INITIALIZED and invokes its hook;
    any other call is logged and ignored (section 7, StateError). *)
Definition Component_reset (r : Ref) : M unit :=
  emit (EvCall r RESET) ;;
  st <- gets (fun w => Component.state (units w r)) ;;
  match st with
  | STOPPED =>
      set_state r RESETTING ;; run_hook r RESET ;; set_state r INITIALIZED
  | _ => log (ByUnit r) ERROR (Refused RESET st)
  end.

(** Modelled from the spec: [Component.dispose()] (section 4.2).  The verb
    is accepted in every state but DISPOSED, where it is a no-op. *)
Definition Component_dispose (r : Ref) : M unit :=
  emit (EvCall r DISPOSE) ;;
  st <- gets (fun w => Component.state (units w r)) ;;
  match st with
  | DISPOSED => ret tt
  | _ => run_hook r DISPOSE ;; set_state r DISPOSED
  end.

(** Modelled from the spec: a unit is rejected when its identity is already
    registered (section 4.3; the docstring of [add_strategy] says "if
    [strategy.id] already exists in the trader"), so [item in collection]
    holds when the collection has the object itself or one with the same
    id. *)
Definition contains (w : World) (item : Ref) (collection : list Ref) : bool :=
  existsb (fun r => Nat.eqb r item
                    || String.eqb (Component.id (units w r))
                                  (Component.id (units w item)))
          collection.

(** Modelled from the spec: [Condition.not_in] of the missing
    [nautilus_trader.core.correctness] rejects (raises) when the item is in
    the collection; the docstrings of [add_strategy] and [add_actor] name
    the exception, [KeyError]. *)
Definition Condition_not_in (item : Ref) (collection : list Ref)
    (item_name collection_name : string) : M unit :=
  fun w =>
    if contains w item collection
    then (w, Raise (KeyError item_name collection_name))
    else (w, Return tt).

(** Modelled from the spec: [Condition.true] of the missing
    [nautilus_trader.core.correctness] rejects (raises) a false predicate;
    the docstrings of [add_strategy] and [add_actor] name the exception,
    [ValueError]. *)
Definition Condition_true (predicate : bool) (fail_msg : string) : M unit :=
  if predicate then ret tt else raise (ValueError fail_msg).

(** ** Wiring *)

(** [self._clock.__class__()]: a new object of the class of the Trader's
    clock, at the next free address. *)
Definition new_clock : M Ref :=
  fun w =>
    let c := next_ref w in
    (mkWorld (self w) (units w)
             (upd (clock_class w) c (clock_class w (_clock (self w))))
             (S c) (cache_data w) (portfolio_state w) (analyzer_state w)
             (trace w),
     Return c).

(** Modelled from the spec: [self._log.get_logger()] hands out a child of
    the Trader's logger. *)
Definition get_logger : M Logger :=
  gets (fun w => ChildLogger (_log (self w))).

(** Modelled from the spec: [TradingStrategy.register] stores the services
    it is given (section 4.3).  The spec names no effect of registration on
    the identity or the lifecycle state of the unit; the stand-in leaves
    both fields as it finds them. *)
Definition TradingStrategy_register (r : Ref) (trader_id : TraderId)
    (portfolio msgbus cache clock : Ref) (logger : Logger) : M unit :=
  modify (fun w =>
    let u := units w r in
    with_units
      (upd (units w) r
         (Component.mk (Component.id u) (Component.state u) (Some trader_id)
            (Some portfolio) (Some msgbus) (Some cache) (Some clock)
            (Some logger) (Component.hook_raises u)))
      w).

(** Modelled from the spec: [Actor.register_base] stores the services it is
    given; an actor gets no portfolio.  As for [TradingStrategy.register],
    identity and lifecycle state are left as they are found. *)
Definition Actor_register_base (r : Ref) (trader_id : TraderId)
    (msgbus cache clock : Ref) (logger : Logger) : M unit :=
  modify (fun w =>
    let u := units w r in
    with_units
      (upd (units w) r
         (Component.mk (Component.id u) (Component.state u) (Some trader_id)
            (Component.portfolio u) (Some msgbus) (Some cache) (Some clock)
            (Some logger) (Component.hook_raises u)))
      w).

(** ** Methods of [Trader] *)

(** [self.is_running_c()] on the Trader itself. *)
Definition self_is_running_c : M bool :=
  gets (fun w => ComponentState_eqb (state (self w)) RUNNING).

Definition _start : M unit :=
  strategies <- gets (fun w => _strategies (self w)) ;;
  match strategies with
  | [] => log ByTrader ERROR (Lit "No strategies loaded.")
  | _ =>
      actors <- gets (fun w => _actors (self w)) ;;
      for_each actors Component_start ;;
      strategies <- gets (fun w => _strategies (self w)) ;;
      for_each strategies Component_start
  end.

Definition _stop : M unit :=
  actors <- gets (fun w => _actors (self w)) ;;
  for_each actors (fun actor =>
    running <- is_running_c actor ;;
    if running then Component_stop actor
    else log ByTrader WARNING (Fmt "" actor " already stopped.")) ;;
  strategies <- gets (fun w => _strategies (self w)) ;;
  for_each strategies (fun strategy =>
    running <- is_running_c strategy ;;
    if running then Component_stop strategy
    else log ByTrader WARNING (Fmt "" strategy " already stopped.")).

Definition _reset : M unit :=
  actors <- gets (fun w => _actors (self w)) ;;
  for_each actors Component_reset ;;
  strategies <- gets (fun w => _strategies (self w)) ;;
  for_each strategies Component_reset ;;
  portfolio <- gets (fun w => _portfolio (self w)) ;;
  emit (EvPortfolioReset portfolio) ;;
  modify (fun w => with_portfolio_state (Portfolio_reset (portfolio_state w)) w) ;;
  analyzer <- gets (fun w => analyzer (self w)) ;;
  emit (EvAnalyzerReset analyzer) ;;
  modify (fun w => with_analyzer_state (PortfolioAnalyzer_reset (analyzer_state w)) w).

Definition _dispose : M unit :=
  actors <- gets (fun w => _actors (self w)) ;;
  for_each actors Component_dispose ;;
  strategies <- gets (fun w => _strategies (self w)) ;;
  for_each strategies Component_dispose.

(** The argument is an object reference, so [Condition.not_none] holds by
    construction. *)
Definition add_strategy (strategy : Ref) : M unit :=
  strategies <- gets (fun w => _strategies (self w)) ;;
  Condition_not_in strategy strategies "strategy" "_strategies" ;;
  running <- is_running_c strategy ;;
  Condition_true (negb running) "strategy.state was RUNNING" ;;
  disposed <- is_disposed_c strategy ;;
  Condition_true (negb disposed) "strategy.state was DISPOSED" ;;
  self_running <- self_is_running_c ;;
  if self_running then
    log ByTrader ERROR (Lit "Cannot add a strategy to a running trader.")
  else
    trader_id <- gets (fun w => id (self w)) ;;
    portfolio <- gets (fun w => _portfolio (self w)) ;;
    msgbus <- gets (fun w => _msgbus (self w)) ;;
    cache <- gets (fun w => _cache (self w)) ;;
    clock <- new_clock ;;
    logger <- get_logger ;;
    TradingStrategy_register strategy trader_id portfolio msgbus cache clock logger ;;
    exec_engine <- gets (fun w => _exec_engine (self w)) ;;
    emit (EvRegisterOmsType exec_engine strategy) ;;
    modify (fun w => with_self (with_strategies (_strategies (self w) ++ [strategy]) (self w)) w) ;;
    log ByTrader INFO (Fmt "Registered TradingStrategy " strategy ".").

Definition add_actor (actor : Ref) : M unit :=
  actors <- gets (fun w => _actors (self w)) ;;
  Condition_not_in actor actors "actor" "_actors" ;;
  running <- is_running_c actor ;;
  Condition_true (negb running) "actor.state was RUNNING" ;;
  disposed <- is_disposed_c actor ;;
  Condition_true (negb disposed) "actor.state was DISPOSED" ;;
  self_running <- self_is_running_c ;;
  if self_running then
    log ByTrader ERROR (Lit "Cannot add component to a running trader.")
  else
    trader_id <- gets (fun w => id (self w)) ;;
    msgbus <- gets (fun w => _msgbus (self w)) ;;
    cache <- gets (fun w => _cache (self w)) ;;
    clock <- new_clock ;;
    logger <- get_logger ;;
    Actor_register_base actor trader_id msgbus cache clock logger ;;
    modify (fun w => with_self (with_actors (_actors (self w) ++ [actor]) (self w)) w) ;;
    log ByTrader INFO (Fmt "Registered Component " actor ".").

(** [sorted(...)] on identifiers: ascending by [<=] on the id strings, by
    stable insertion. *)
Fixpoint insert_sorted (x : ComponentId) (l : list ComponentId) : list ComponentId :=
  match l with
  | [] => [x]
  | y :: l' => if String.leb x y then x :: l else y :: insert_sorted x l'
  end.

Definition sorted (l : list ComponentId) : list ComponentId :=
  fold_right insert_sorted [] l.

Definition actor_ids : M (list ComponentId) :=
  gets (fun w => sorted (map (fun actor => Component.id (units w actor))
                             (_actors (self w)))).

Definition strategy_ids : M (list ComponentId) :=
  gets (fun w => sorted (map (fun strategy => Component.id (units w strategy))
                             (_strategies (self w)))).

(** ** Reports *)

(** Modelled from the spec: the query [orders()] of the Cache (section 6). *)
Definition Cache_orders : M (list Order) :=
  gets (fun w => cache_orders (cache_data w)).

(** Modelled from the spec: the query [positions()] of the Cache. *)
Definition Cache_positions : M (list PositionRecord) :=
  gets (fun w => cache_positions (cache_data w)).

(** The account stored for a venue, if any. *)
Fixpoint lookup_account (venue : Venue) (l : list (Venue * Account)) : option Account :=
  match l with
  | [] => None
  | (v, a) :: l' => if String.eqb v venue then Some a else lookup_account venue l'
  end.

(** Modelled from the spec: the query [account_for_venue(venue)] of the
    Cache; [None] when the Cache holds no account for the venue. *)
Definition Cache_account_for_venue (venue : Venue) : M (option Account) :=
  gets (fun w => lookup_account venue (cache_accounts (cache_data w))).

Definition generate_orders_report : M DataFrame :=
  orders <- Cache_orders ;;
  ret (ReportProvider_generate_orders_report orders).

Definition generate_order_fills_report : M DataFrame :=
  orders <- Cache_orders ;;
  ret (ReportProvider_generate_order_fills_report orders).

Definition generate_positions_report : M DataFrame :=
  positions <- Cache_positions ;;
  ret (ReportProvider_generate_positions_report positions).

Definition generate_account_report (venue : Venue) : M DataFrame :=
  account <- Cache_account_for_venue venue ;;
  match account with
  | None => ret empty_DataFrame
  | Some a => ret (ReportProvider_generate_account_report a)
  end.

(** ** Bulk registration, clearing and state listings *)

(** Modelled from the spec: [Condition.not_empty] of the missing
    [nautilus_trader.core.correctness] rejects (raises) an absent or empty
    collection; the docstrings of [add_strategies] and [add_actors] name the
    exception, [ValueError], which here carries the parameter name. *)
Definition Condition_not_empty (collection : option (list Ref))
    (param : string) : M unit :=
  match collection with
  | None | Some [] => raise (ValueError param)
  | Some (_ :: _) => ret tt
  end.

(** The elements a [for] loop walks once [Condition.not_empty] has passed. *)
Definition elements (collection : option (list Ref)) : list Ref :=
  match collection with
  | None => []
  | Some l => l
  end.

Definition add_strategies (strategies : option (list Ref)) : M unit :=
  Condition_not_empty strategies "strategies" ;;
  for_each (elements strategies) add_strategy.

Definition add_actors (actors : option (list Ref)) : M unit :=
  Condition_not_empty actors "actors" ;;
  for_each (elements actors) add_actor.

Definition clear_strategies : M unit :=
  self_running <- self_is_running_c ;;
  if self_running then
    log ByTrader ERROR (Lit "Cannot clear the strategies of a running trader.")
  else
    strategies <- gets (fun w => _strategies (self w)) ;;
    for_each strategies Component_dispose ;;
    modify (fun w => with_self (with_strategies [] (self w)) w).

Definition clear_actors : M unit :=
  self_running <- self_is_running_c ;;
  if self_running then
    log ByTrader ERROR (Lit "Cannot clear the actors of a running trader.")
  else
    actors <- gets (fun w => _actors (self w)) ;;
    for_each actors Component_dispose ;;
    modify (fun w => with_self (with_actors [] (self w)) w).

(** Modelled from the spec: [state_string_c] of the missing [Component]
    base class gives the name of the lifecycle state (section 4.2). *)
Definition state_string_c (st : ComponentState) : string :=
  match st with
  | PRE_INITIALIZED => "PRE_INITIALIZED"
  | INITIALIZED => "INITIALIZED"
  | STARTING => "STARTING"
  | RUNNING => "RUNNING"
  | STOPPING => "STOPPING"
  | STOPPED => "STOPPED"
  | RESETTING => "RESETTING"
  | DISPOSED => "DISPOSED"
  end.

(** [{u.id: u.state_string_c() for u in registry}] *)
Definition states_of (w : World) (registry : list Ref) : Dict.dict string :=
  fold_left
    (fun d u => Dict.set (Component.id (units w u))
                         (state_string_c (Component.state (units w u))) d)
    registry [].

Definition actor_states : M (Dict.dict string) :=
  gets (fun w => states_of w (_actors (self w))).

Definition strategy_states : M (Dict.dict string) :=
  gets (fun w => states_of w (_strategies (self w))).

End Orchestrator.

End Trading.

(* ================================================================== *)
(** * Binance: request builder and fill parser
      ([adapters/ccxt/exchanges/binance.pyx])                          *)
(* ================================================================== *)

Module Binance.

(** The enum declarations ([model/c_enums]) are not part of the sources:
    the members the builder names are constructors, and [Other n] stands
    for any member it does not name. *)
Module TimeInForce.
Inductive t : Type := DAY | GTD | Other (n : nat).
End TimeInForce.

Module OrderType.
Inductive t : Type := MARKET | LIMIT | STOP_MARKET | Other (n : nat).
End OrderType.

Module OrderSide.
Inductive t : Type := BUY | SELL | Other (n : nat).
End OrderSide.

(** A value stored in the request dict. *)
Inductive Value : Type :=
| Str (s : string)
| Int (n : Z).

Inductive Exn : Type :=
| ValueError (msg : string)
| KeyError (key : string)
| ConditionFailed (param : string).

Inductive Outcome (A : Type) : Type :=
| Return (a : A)
| Raise (e : Exn).

Arguments Return {A} a.
Arguments Raise {A} e.

Section Adapter.

(** [Price], its [str()], [TimeInForceParser.to_str] and
    [Condition.valid_string] are not part of the sources; the adapter is
    parametric in them.  A failed [Condition] check raises
    [ConditionFailed] with the name of the parameter it was given. *)
Variable Price : Type.
Variable Price_str : Price -> string.
Variable TimeInForceParser_to_str : TimeInForce.t -> string.
Variable valid_string : string -> bool.

(** The attributes of [Order] the builder reads; [cl_ord_id] holds
    [order.cl_ord_id.value]. *)
Record Order : Type := mkOrder {
  cl_ord_id : string;
  type : OrderType.t;
  side : OrderSide.t;
  time_in_force : TimeInForce.t;
  is_post_only : bool;
  is_hidden : bool;
  price : Price
}.

(** [BinanceOrderRequestBuilder.build]; the argument of type [Order] may
    be [None], which [Condition.not_none] refuses. *)
Definition build (order : option Order) : Outcome (Dict.dict Value) :=
  match order with
  | None => Raise (ConditionFailed "order")
  | Some order =>
  match time_in_force order with
  | TimeInForce.GTD =>
      Raise (ValueError "TimeInForce.GTD not supported in this version.")
  | TimeInForce.DAY =>
      Raise (ValueError "Binance does not support TimeInForce.DAY.")
  | TimeInForce.Other _ =>
      let request :=
        Dict.set "recvWindow" (Int 10000)
          (Dict.set "newClientOrderId" (Str (cl_ord_id order)) []) in
      match type order with
      | OrderType.MARKET =>
          Return (Dict.set "type" (Str "MARKET") request)
      | OrderType.LIMIT =>
          if is_post_only order then
            Return (Dict.set "type" (Str "LIMIT_MAKER") request)
          else if is_hidden order then
            Raise (ValueError "Binance does not support hidden orders.")
          else
            Return
              (Dict.set "timeInForce"
                 (Str (TimeInForceParser_to_str (time_in_force order)))
                 (Dict.set "type" (Str "LIMIT") request))
      | OrderType.STOP_MARKET =>
          let request :=
            match side order with
            | OrderSide.BUY => Dict.set "type" (Str "STOP_LOSS") request
            | OrderSide.SELL => Dict.set "type" (Str "TAKE_PROFIT") request
            | OrderSide.Other _ => request
            end in
          Return (Dict.set "stopPrice" (Str (Price_str (price order))) request)
      | OrderType.Other _ => Return request
      end
  end
  end.

(** [build_py] wraps [build]. *)
Definition build_py (order : option Order) : Outcome (Dict.dict Value) :=
  build order.

(** The raw values of the [info] dict and the [fee] dict are opaque to the
    parser. *)
Variable Raw : Type.
Variable Fee : Type.

(** A value of the parsed dict. *)
Inductive Parsed : Type :=
| PSymbol (s : string)
| PFee (fee : Fee)
| PRaw (v : Raw).

(** [info[k]]: a missing key raises [KeyError]. *)
Definition item (info : Dict.dict Raw) (k : string) : Outcome Raw :=
  match Dict.get k info with
  | Some v => Return v
  | None => Raise (KeyError k)
  end.

(** [BinanceOrderFillParser.parse].  [Condition.valid_string] raises on a
    string it does not accept, [Condition.not_none] on an [info] or a [fee]
    that is [None]; the dict display evaluates [info["l"]], [info["z"]],
    [info["L"]] and [info["T"]] in this order. *)
Definition parse (symbol : string) (info : option (Dict.dict Raw))
    (fee : option Fee) : Outcome (Dict.dict Parsed) :=
  if negb (valid_string symbol) then Raise (ConditionFailed "symbol")
  else
    match info with
    | None => Raise (ConditionFailed "info")
    | Some info =>
    match fee with
    | None => Raise (ConditionFailed "fee")
    | Some fee =>
    match item info "l" with
    | Raise e => Raise e
    | Return fill_qty =>
    match item info "z" with
    | Raise e => Raise e
    | Return cum_qty =>
    match item info "L" with
    | Raise e => Raise e
    | Return average =>
    match item info "T" with
    | Raise e => Raise e
    | Return timestamp =>
        Return
          (Dict.set "timestamp" (PRaw timestamp)
          (Dict.set "average" (PRaw average)
          (Dict.set "cum_qty" (PRaw cum_qty)
          (Dict.set "fill_qty" (PRaw fill_qty)
          (Dict.set "fee" (PFee fee)
          (Dict.set "symbol" (PSymbol symbol) []))))))
    end end
    end end end end.

(** [parse_py] wraps [parse]. *)
Definition parse_py (symbol : string) (info : option (Dict.dict Raw))
    (fee : option Fee) : Outcome (Dict.dict Parsed) := parse symbol info fee.

End Adapter.

End Binance.

(* ================================================================== *)
(** * Properties of the position ledger                                *)
(* ================================================================== *)

Section PositionProperties.

Import Model.

Local Open Scope Q_scope.

Variable _calculate_return : Position -> Q -> Q -> Q.

Lemma mem_id_In (x : string) (l : list string) :
  mem_id x l = true <-> In x l.
Proof.
  induction l as [| y l IH]; simpl.
  - split; [discriminate | contradiction].
  - rewrite orb_true_iff, IH, String.eqb_eq. reflexivity.
Qed.

Lemma apply_guard (self : Position) (fill : Fill.OrderFilled) :
  In (Fill.execution_id fill) (_execution_ids self)
  \/ Fill.instrument_id fill <> instrument_id self ->
  apply _calculate_return self fill = (self, Raise DataIntegrityError).
Proof.
  intros H. unfold apply.
  destruct H as [H | H].
  - apply mem_id_In in H. rewrite H. now rewrite orb_true_r.
  - apply String.eqb_neq in H. rewrite H. reflexivity.
Qed.

Lemma apply_records_execution_id (self self' : Position) (fill : Fill.OrderFilled) :
  apply _calculate_return self fill = (self', Done) ->
  _execution_ids self' = _execution_ids self ++ [Fill.execution_id fill].
Proof.
  unfold apply.
  destruct (negb (String.eqb (Fill.instrument_id fill) (instrument_id self))
            || mem_id (Fill.execution_id fill) (_execution_ids self));
    [discriminate|].
  intros [= <-]. reflexivity.
Qed.

(** C1: a fill whose execution id the Position has already applied, or
    whose instrument id is not the Position's, makes [apply] raise
    [DataIntegrityError] and hand back the very Position it was given, so
    quantity, net quantity, average open price, realized PnL, commissions
    and event history are what they were; in particular the second of two
    fills with one execution id is refused in this way. *)
Theorem apply_rejects_without_mutation (self : Position) (fill : Fill.OrderFilled) :
  (In (Fill.execution_id fill) (_execution_ids self)
   \/ Fill.instrument_id fill <> instrument_id self ->
   apply _calculate_return self fill = (self, Raise DataIntegrityError)
   /\ (let self' := fst (apply _calculate_return self fill) in
       quantity self' = quantity self
       /\ net_qty self' = net_qty self
       /\ avg_px_open self' = avg_px_open self
       /\ realized_pnl self' = realized_pnl self
       /\ _commissions self' = _commissions self
       /\ _events self' = _events self))
  /\
  (forall (self1 : Position) (again : Fill.OrderFilled),
     apply _calculate_return self fill = (self1, Done) ->
     Fill.execution_id again = Fill.execution_id fill ->
     apply _calculate_return self1 again = (self1, Raise DataIntegrityError)).
Proof.
  split.
  - intros H. rewrite (apply_guard self fill H). simpl. repeat split.
  - intros self1 again Hfirst Hsame. apply apply_guard. left.
    rewrite (apply_records_execution_id _ _ _ Hfirst), Hsame.
    apply in_or_app. right. now left.
Qed.

(** Once nothing is open, the unrealized PnL is zero at any price. *)
Lemma unrealized_pnl_flat (self : Position) (last : Q) :
  quantity self == 0 ->
  amount (unrealized_pnl self last) == 0.
Proof.
  intros H. unfold unrealized_pnl.
  apply Qeq_bool_iff in H. rewrite H. reflexivity.
Qed.

(** C2: for positive prices and quantity, [calculate_pnl] is Money in the
    cost currency whose amount is [(avg_close - avg_open) * qty * multiplier]
    on a standard contract and [qty * multiplier * (1/avg_open - 1/avg_close)]
    on an inverse contract, negated when the Position is SHORT. *)
Theorem calculate_pnl_formula (self : Position) (avg_open avg_close qty : Q) :
  0 < avg_open -> 0 < avg_close -> 0 < qty ->
  currency (calculate_pnl self avg_open avg_close qty) = cost_currency self
  /\ amount (calculate_pnl self avg_open avg_close qty) ==
       (let pnl :=
          if is_inverse self
          then qty * multiplier self * (1 / avg_open - 1 / avg_close)
          else (avg_close - avg_open) * qty * multiplier self in
        match side self with
        | SHORT => - pnl
        | _ => pnl
        end).
Proof.
  intros Ho Hc Hq. split; [reflexivity|].
  unfold calculate_pnl, _calculate_pnl, _calculate_points,
    _calculate_points_inverse, sign_adjust. simpl.
  destruct (is_inverse self), (side self); try reflexivity.
  - unfold Qdiv. ring.
  - ring.
Qed.

End PositionProperties.

(* ================================================================== *)
(** * Properties of the Trader orchestrator                            *)
(* ================================================================== *)

Section TraderProperties.

Import Trading.

Context {ext : Collaborators}.

(** The unit [item] is registered in [collection]: the collection holds a
    component with the identity of [item]. *)
Definition registered (w : World) (item : Ref) (collection : list Ref) : Prop :=
  exists r, In r collection /\
            Component.id (units w r) = Component.id (units w item).

Lemma ComponentState_eqb_eq (a b : ComponentState) :
  ComponentState_eqb a b = true <-> a = b.
Proof. destruct a, b; simpl; split; intros H; congruence. Qed.

Lemma ComponentState_eqb_neq (a b : ComponentState) :
  ComponentState_eqb a b = false <-> a <> b.
Proof. destruct a, b; simpl; split; intros H; congruence. Qed.

Lemma contains_registered (w : World) (item : Ref) (collection : list Ref) :
  contains w item collection = true <-> registered w item collection.
Proof.
  unfold contains, registered. rewrite existsb_exists. split.
  - intros (r & Hin & Hr). exists r. split; [exact Hin|].
    apply orb_true_iff in Hr. destruct Hr as [Hr | Hr].
    + apply Nat.eqb_eq in Hr. now subst.
    + now apply String.eqb_eq in Hr.
  - intros (r & Hin & Hr). exists r. split; [exact Hin|].
    apply orb_true_iff. right. now apply String.eqb_eq.
Qed.

Lemma contains_not_registered (w : World) (item : Ref) (collection : list Ref) :
  contains w item collection = false <-> ~ registered w item collection.
Proof.
  rewrite <- contains_registered. destruct (contains w item collection); split;
    intros H; congruence.
Qed.

Lemma registered_In (w : World) (item : Ref) (collection : list Ref) :
  In item collection -> registered w item collection.
Proof. intros H. exists item. split; [exact H | reflexivity]. Qed.

(** Number of times the verb [v] was invoked on unit [r] in a trace. *)
Definition is_call (r : Ref) (v : Verb) (e : Event) : bool :=
  match e with
  | EvCall r' v' =>
      Nat.eqb r' r &&
      match v, v' with
      | START, START | STOP, STOP | RESET, RESET | DISPOSE, DISPOSE => true
      | _, _ => false
      end
  | _ => false
  end.

Definition count_calls (r : Ref) (v : Verb) (tr : list Event) : nat :=
  List.length (filter (is_call r v) tr).

Lemma count_calls_app (r : Ref) (v : Verb) (tr1 tr2 : list Event) :
  count_calls r v (tr1 ++ tr2) = count_calls r v tr1 + count_calls r v tr2.
Proof. unfold count_calls. now rewrite filter_app, length_app. Qed.

(** C3: on a RUNNING Trader, [add_strategy] of a strategy that passes the
    three guards (not registered, not RUNNING, not DISPOSED) returns normally
    after logging one error; the store is otherwise untouched, so the
    strategy registry keeps its contents and its length and the strategy is
    absent from it. *)
Theorem add_strategy_to_running_trader (w : World) (strategy : Ref) :
  state (self w) = RUNNING ->
  ~ registered w strategy (_strategies (self w)) ->
  Component.state (units w strategy) <> RUNNING ->
  Component.state (units w strategy) <> DISPOSED ->
  let w' := fst (add_strategy strategy w) in
  add_strategy strategy w =
    (with_trace
       (trace w ++ [EvLog ByTrader ERROR
                      (Lit "Cannot add a strategy to a running trader.")]) w,
     Return tt)
  /\ _strategies (self w') = _strategies (self w)
  /\ List.length (_strategies (self w')) = List.length (_strategies (self w))
  /\ ~ In strategy (_strategies (self w'))
  /\ ~ registered w' strategy (_strategies (self w')).
Proof.
  intros Hrun Hreg Hnr Hnd w'.
  assert (E : add_strategy strategy w =
    (with_trace
       (trace w ++ [EvLog ByTrader ERROR
                      (Lit "Cannot add a strategy to a running trader.")]) w,
     Return tt)).
  { unfold add_strategy, bind, gets, Condition_not_in, is_running_c,
      is_disposed_c, self_is_running_c, Condition_true, log, emit, modify, ret.
    apply contains_not_registered in Hreg. rewrite Hreg. simpl.
    apply ComponentState_eqb_neq in Hnr. rewrite Hnr. simpl.
    apply ComponentState_eqb_neq in Hnd. rewrite Hnd. simpl.
    rewrite Hrun. reflexivity. }
  subst w'. rewrite E. simpl. repeat split; auto.
  intros Hin. apply Hreg. now apply registered_In.
Qed.

(** C4: [add_strategy] and [add_actor] raise, and leave the whole store as
    it was, whenever the unit is already registered in the corresponding
    registry, or is RUNNING, or is DISPOSED; nothing is assumed about the
    state of the Trader. *)
Theorem add_rejects_registered_running_disposed (w : World) (unit : Ref) :
  (registered w unit (_strategies (self w))
   \/ Component.state (units w unit) = RUNNING
   \/ Component.state (units w unit) = DISPOSED ->
   exists e, add_strategy unit w = (w, Raise e))
  /\
  (registered w unit (_actors (self w))
   \/ Component.state (units w unit) = RUNNING
   \/ Component.state (units w unit) = DISPOSED ->
   exists e, add_actor unit w = (w, Raise e)).
Proof.
  split; intros H.
  - unfold add_strategy, bind, gets, Condition_not_in, is_running_c,
      is_disposed_c, Condition_true, raise, ret.
    destruct (contains w unit (_strategies (self w))) eqn:Hc; [eauto|]. simpl.
    destruct H as [H | [H | H]].
    + apply contains_registered in H. congruence.
    + rewrite H. simpl. eauto.
    + repeat (rewrite H; simpl). eauto.
  - unfold add_actor, bind, gets, Condition_not_in, is_running_c,
      is_disposed_c, Condition_true, raise, ret.
    destruct (contains w unit (_actors (self w))) eqn:Hc; [eauto|]. simpl.
    destruct H as [H | [H | H]].
    + apply contains_registered in H. congruence.
    + rewrite H. simpl. eauto.
    + repeat (rewrite H; simpl). eauto.
Qed.

(** C6: with an empty strategy registry the [_start] hook logs one error
    and returns; nothing else in the store changes, and no [start()] call
    reaches any unit, registered actor or not. *)
Theorem start_hook_without_strategies (w : World) :
  _strategies (self w) = [] ->
  _start w =
    (with_trace
       (trace w ++ [EvLog ByTrader ERROR (Lit "No strategies loaded.")]) w,
     Return tt)
  /\ forall r, count_calls r START (trace (fst (_start w)))
               = count_calls r START (trace w).
Proof.
  intros Hs.
  assert (E : _start w =
    (with_trace
       (trace w ++ [EvLog ByTrader ERROR (Lit "No strategies loaded.")]) w,
     Return tt)).
  { unfold _start, bind, gets. rewrite Hs. reflexivity. }
  split; [exact E|].
  intros r. rewrite E. unfold with_trace. cbn [fst trace].
  rewrite count_calls_app. cbn. lia.
Qed.

Lemma lookup_account_None (venue : Venue) (l : list (Venue * Account)) :
  (forall a, ~ In (venue, a) l) -> lookup_account venue l = None.
Proof.
  induction l as [| [v a] l IH]; intros H; simpl; [reflexivity|].
  destruct (String.eqb_spec v venue) as [-> | Hne].
  - exfalso. apply (H a). now left.
  - apply IH. intros a' Hin. apply (H a'). now right.
Qed.

(** C8: when the Cache holds no account for the venue,
    [generate_account_report] returns the empty DataFrame and raises
    nothing; each of the four reporting operations hands back the store it
    was given, whatever the Cache holds. *)
Theorem reports_are_read_only (w : World) (venue : Venue) :
  ((forall a, ~ In (venue, a) (cache_accounts (cache_data w))) ->
   generate_account_report venue w = (w, Return empty_DataFrame))
  /\ generate_orders_report w =
       (w, Return (ReportProvider_generate_orders_report
                     (cache_orders (cache_data w))))
  /\ generate_order_fills_report w =
       (w, Return (ReportProvider_generate_order_fills_report
                     (cache_orders (cache_data w))))
  /\ generate_positions_report w =
       (w, Return (ReportProvider_generate_positions_report
                     (cache_positions (cache_data w))))
  /\ (exists df, generate_account_report venue w = (w, Return df)).
Proof.
  repeat split; try reflexivity.
  - intros H. unfold generate_account_report, bind, Cache_account_for_venue, gets.
    now rewrite (lookup_account_None _ _ H).
  - unfold generate_account_report, bind, Cache_account_for_venue, gets.
    destruct (lookup_account venue (cache_accounts (cache_data w))); eexists;
      reflexivity.
Qed.

(** Ascending order on identifiers. *)
Definition id_le (a b : ComponentId) : Prop := String.leb a b = true.

Lemma insert_sorted_Permutation (x : ComponentId) (l : list ComponentId) :
  Permutation (insert_sorted x l) (x :: l).
Proof.
  induction l as [| y l IH]; simpl; [reflexivity|].
  destruct (String.leb x y); [reflexivity|].
  rewrite IH. apply perm_swap.
Qed.

Lemma insert_sorted_Sorted (x : ComponentId) (l : list ComponentId) :
  Sorted id_le l -> Sorted id_le (insert_sorted x l).
Proof.
  induction l as [| y l IH]; intros Hs; simpl.
  - repeat constructor.
  - destruct (String.leb x y) eqn:Hxy.
    + constructor; [exact Hs | constructor; exact Hxy].
    + apply Sorted_inv in Hs. destruct Hs as [Hs Hhd].
      constructor; [now apply IH|].
      assert (Hyx : id_le y x).
      { destruct (String.leb_total x y) as [H | H]; [congruence | exact H]. }
      destruct l as [| z l]; simpl.
      * constructor; exact Hyx.
      * destruct (String.leb x z); constructor; [exact Hyx|].
        now apply HdRel_inv in Hhd.
Qed.

Lemma sorted_Sorted (l : list ComponentId) : Sorted id_le (sorted l).
Proof.
  induction l as [| x l IH]; simpl; [constructor|].
  now apply insert_sorted_Sorted.
Qed.

Lemma sorted_Permutation (l : list ComponentId) : Permutation (sorted l) l.
Proof.
  induction l as [| x l IH]; simpl; [reflexivity|].
  rewrite insert_sorted_Permutation. now constructor.
Qed.

(** *** The stop cascade *)

Definition running (w : World) (r : Ref) : bool :=
  ComponentState_eqb (Component.state (units w r)) RUNNING.

(** What the stop cascade appends to the trace while it walks [l], given
    which units are running when it starts: a running unit gets [stop()],
    whose hook then runs, any other unit gets the Trader's warning; a unit
    that was visited is not running any more. *)
Fixpoint stop_events (run : Ref -> bool) (l : list Ref) : list Event :=
  match l with
  | [] => []
  | r :: l' =>
      (if run r then [EvCall r STOP; EvHook r STOP]
       else [EvLog ByTrader WARNING (Fmt "" r " already stopped.")])
      ++ stop_events (fun r' => run r' && negb (Nat.eqb r' r)) l'
  end.

(** The units the Trader handled, in the order of its own steps: the target
    of each [stop()] call and of each warning of the Trader. *)
Definition visited (tr : list Event) : list Ref :=
  flat_map (fun e =>
              match e with
              | EvCall r STOP => [r]
              | EvLog ByTrader WARNING (Fmt _ r _) => [r]
              | _ => []
              end) tr.

Definition stop_body (child : Ref) : M unit :=
  bind (is_running_c child) (fun running =>
    if running then Component_stop child
    else log ByTrader WARNING (Fmt "" child " already stopped.")).

Lemma upd_same {A : Type} (f : Ref -> A) (r : Ref) (a : A) : upd f r a r = a.
Proof. unfold upd. now rewrite Nat.eqb_refl. Qed.

Lemma upd_other {A : Type} (f : Ref -> A) (r r' : Ref) (a : A) :
  r' <> r -> upd f r a r' = f r'.
Proof. intros H. unfold upd. apply Nat.eqb_neq in H. now rewrite H. Qed.

Lemma stop_events_ext (l : list Ref) :
  forall f g, (forall r, f r = g r) -> stop_events f l = stop_events g l.
Proof.
  induction l as [| r l IH]; intros f g H; simpl; [reflexivity|].
  rewrite (H r). f_equal. apply IH. intros r'. now rewrite (H r').
Qed.

Lemma stop_body_step (w : World) (r : Ref) :
  (running w r = true -> Component.hook_raises (units w r) STOP = false) ->
  exists w',
    stop_body r w = (w', Return tt)
    /\ self w' = self w
    /\ trace w' = trace w ++ stop_events (running w) [r]
    /\ (forall r', running w' r' = running w r' && negb (Nat.eqb r' r))
    /\ (forall r' v, Component.hook_raises (units w' r') v
                     = Component.hook_raises (units w r') v).
Proof.
  intros Hhook.
  unfold stop_body, bind, is_running_c, gets. fold (running w r).
  destruct (running w r) eqn:Hrun.
  - specialize (Hhook eq_refl).
    unfold running in Hrun. apply ComponentState_eqb_eq in Hrun.
    unfold Component_stop, bind, emit, modify, gets, set_state, run_hook,
      raise, ret.
    cbn. rewrite Hrun. cbn. rewrite upd_same. cbn. rewrite Hhook.
    eexists. split; [reflexivity|]. cbn.
    split; [reflexivity|]. split.
    { unfold running. rewrite Hrun. cbn. now rewrite <- app_assoc. }
    split.
    + intros r'. unfold running. cbn.
      destruct (Nat.eqb_spec r' r) as [-> | Hne].
      * rewrite upd_same. cbn. now rewrite andb_false_r.
      * rewrite !upd_other by exact Hne. now rewrite andb_true_r.
    + intros r' v. destruct (Nat.eqb_spec r' r) as [-> | Hne].
      * now rewrite !upd_same.
      * now rewrite !upd_other by exact Hne.
  - unfold log, emit, modify.
    eexists. split; [reflexivity|]. cbn.
    split; [reflexivity|]. split.
    { now rewrite Hrun. }
    split; [|reflexivity].
    intros r'. fold (running w r').
    destruct (Nat.eqb_spec r' r) as [-> | Hne]; cbn.
    + now rewrite Hrun.
    + now rewrite andb_true_r.
Qed.

Lemma stop_loop (l : list Ref) :
  forall w,
    (forall r, In r l -> running w r = true ->
               Component.hook_raises (units w r) STOP = false) ->
    exists w',
      for_each l stop_body w = (w', Return tt)
      /\ self w' = self w
      /\ trace w' = trace w ++ stop_events (running w) l
      /\ (forall r', running w' r'
                     = running w r' && negb (existsb (Nat.eqb r') l))
      /\ (forall r' v, Component.hook_raises (units w' r') v
                       = Component.hook_raises (units w r') v).
Proof.
  induction l as [| r l IH]; intros w Hh.
  - exists w. simpl. rewrite app_nil_r. repeat split; auto.
    intros r'. now rewrite andb_true_r.
  - destruct (stop_body_step w r) as (w1 & E1 & S1 & T1 & R1 & K1).
    { apply Hh. now left. }
    destruct (IH w1) as (w2 & E2 & S2 & T2 & R2 & K2).
    { intros r' Hin Hrun. rewrite K1. rewrite R1 in Hrun.
      apply andb_true_iff in Hrun. apply Hh; [now right | apply Hrun]. }
    exists w2. split.
    { simpl. unfold bind. rewrite E1. exact E2. }
    split; [congruence|]. split.
    { rewrite T2, T1. simpl stop_events. rewrite app_nil_r, <- app_assoc.
      do 2 f_equal. apply stop_events_ext. exact R1. }
    split.
    + intros r'. rewrite R2, R1. simpl existsb.
      rewrite negb_orb. now rewrite andb_assoc.
    + intros r' v. now rewrite K2, K1.
Qed.

Lemma count_calls_stop_events (l : list Ref) :
  forall run r,
    count_calls r STOP (stop_events run l)
    = if run r && existsb (Nat.eqb r) l then 1 else 0.
Proof.
  induction l as [| a l IH]; intros run r.
  - simpl. now rewrite andb_false_r.
  - simpl stop_events. rewrite count_calls_app, IH. simpl existsb.
    destruct (Nat.eqb_spec r a) as [-> | Hne].
    + destruct (run a); cbn; rewrite ?Nat.eqb_refl; reflexivity.
    + assert (Hne' : Nat.eqb a r = false) by (apply Nat.eqb_neq; congruence).
      destruct (run a), (run r), (existsb (Nat.eqb r) l); cbn; rewrite ?Hne';
        reflexivity.
Qed.

Lemma visited_stop_events (l : list Ref) :
  forall run, visited (stop_events run l) = l.
Proof.
  induction l as [| a l IH]; intros run; [reflexivity|].
  simpl stop_events. unfold visited. rewrite flat_map_app.
  fold (visited (stop_events (fun r' => run r' && negb (Nat.eqb r' a)) l)).
  rewrite IH. destruct (run a); reflexivity.
Qed.

Lemma warning_in_stop_events (l : list Ref) :
  forall run r,
    In r l -> run r = false ->
    In (EvLog ByTrader WARNING (Fmt "" r " already stopped."))
       (stop_events run l).
Proof.
  induction l as [| a l IH]; intros run r Hin Hr; [contradiction|].
  simpl stop_events. apply in_or_app. destruct Hin as [-> | Hin].
  - left. rewrite Hr. now left.
  - right. apply IH; [exact Hin|]. now rewrite Hr.
Qed.

Lemma _stop_unfold (w : World) :
  _stop w =
    match for_each (_actors (self w)) stop_body w with
    | (w1, Return _) => for_each (_strategies (self w1)) stop_body w1
    | (w1, Raise e) => (w1, Raise e)
    end.
Proof. reflexivity. Qed.

(** C7: when the stop hook of no running child raises, the [_stop] hook
    returns normally after walking the actors and then the strategies in
    registration order, one step of the Trader per child; a child that was
    running receives exactly one [stop()] call, a child that was not
    running receives none and gets the Trader's warning instead; the
    registries themselves are left as they were. *)
Theorem stop_hook_cascade (w : World) :
  (forall r, In r (_actors (self w) ++ _strategies (self w)) ->
             running w r = true ->
             Component.hook_raises (units w r) STOP = false) ->
  exists w' added,
    _stop w = (w', Return tt)
    /\ trace w' = trace w ++ added
    /\ visited added = _actors (self w) ++ _strategies (self w)
    /\ (forall r, In r (_actors (self w) ++ _strategies (self w)) ->
                  running w r = true -> count_calls r STOP added = 1)
    /\ (forall r, running w r = false -> count_calls r STOP added = 0)
    /\ (forall r, In r (_actors (self w) ++ _strategies (self w)) ->
                  running w r = false ->
                  In (EvLog ByTrader WARNING (Fmt "" r " already stopped."))
                     added)
    /\ (forall r, In r (_actors (self w) ++ _strategies (self w)) ->
                  running w' r = false)
    /\ self w' = self w.
Proof.
  intros Hh.
  destruct (stop_loop (_actors (self w)) w) as (w1 & E1 & S1 & T1 & R1 & K1).
  { intros r Hin. apply Hh. apply in_or_app. now left. }
  destruct (stop_loop (_strategies (self w)) w1) as (w2 & E2 & S2 & T2 & R2 & K2).
  { intros r Hin Hrun. rewrite K1. rewrite R1 in Hrun.
    apply andb_true_iff in Hrun.
    apply Hh; [apply in_or_app; now right | apply Hrun]. }
  assert (Hadd : stop_events (running w) (_actors (self w))
                 ++ stop_events (running w1) (_strategies (self w))
                 = stop_events (running w)
                     (_actors (self w) ++ _strategies (self w))).
  { clear - R1. revert R1. generalize (running w1). generalize (running w).
    induction (_actors (self w)) as [| a l IH]; intros f g R.
    - simpl. apply stop_events_ext. intros r. rewrite R. simpl.
      now rewrite andb_true_r.
    - simpl. rewrite <- app_assoc. f_equal. apply IH.
      intros r. rewrite R. simpl. rewrite negb_orb. now rewrite andb_assoc. }
  exists w2, (stop_events (running w) (_actors (self w) ++ _strategies (self w))).
  split.
  { rewrite _stop_unfold, E1, S1. exact E2. }
  split. { rewrite T2, T1, <- app_assoc. now rewrite Hadd. }
  split. { apply visited_stop_events. }
  split.
  { intros r Hin Hr. rewrite count_calls_stop_events, Hr.
    assert (Hex : existsb (Nat.eqb r) (_actors (self w) ++ _strategies (self w)) = true).
    { apply existsb_exists. exists r. split; [exact Hin | apply Nat.eqb_refl]. }
    now rewrite Hex. }
  split. { intros r Hr. now rewrite count_calls_stop_events, Hr. }
  split. { intros r Hin Hr. now apply warning_in_stop_events. }
  split.
  { intros r Hin. rewrite R2, R1. apply in_app_or in Hin.
    destruct Hin as [Hin | Hin].
    - assert (Hex : existsb (Nat.eqb r) (_actors (self w)) = true).
      { apply existsb_exists. exists r. split; [exact Hin | apply Nat.eqb_refl]. }
      rewrite Hex. simpl. now rewrite andb_false_r.
    - assert (Hex : existsb (Nat.eqb r) (_strategies (self w)) = true).
      { apply existsb_exists. exists r. split; [exact Hin | apply Nat.eqb_refl]. }
      rewrite Hex. simpl. now rewrite andb_false_r. }
  congruence.
Qed.

(** *** The reset cascade *)

(** The lifecycle calls of a trace, in order. *)
Definition calls_in (tr : list Event) : list Event :=
  filter (fun e => match e with EvCall _ _ => true | _ => false end) tr.

Lemma calls_in_app (tr1 tr2 : list Event) :
  calls_in (tr1 ++ tr2) = calls_in tr1 ++ calls_in tr2.
Proof. apply filter_app. Qed.

(** Events that come from a unit: a lifecycle call it received, its hook,
    or a record of its own logger. *)
Definition from_unit (e : Event) : Prop :=
  match e with
  | EvCall _ _ | EvHook _ _ | EvLog (ByUnit _) _ _ => True
  | _ => False
  end.

Lemma Component_reset_step (w : World) (r : Ref) :
  (Component.state (units w r) = STOPPED ->
   Component.hook_raises (units w r) RESET = false) ->
  exists w' mid,
    Component_reset r w = (w', Return tt)
    /\ self w' = self w
    /\ trace w' = trace w ++ mid
    /\ calls_in mid = [EvCall r RESET]
    /\ Forall from_unit mid
    /\ portfolio_state w' = portfolio_state w
    /\ analyzer_state w' = analyzer_state w
    /\ (forall r', Component.state (units w' r') = STOPPED ->
                   Component.state (units w r') = STOPPED)
    /\ (forall r' v, Component.hook_raises (units w' r') v
                     = Component.hook_raises (units w r') v).
Proof.
  intros Hhook.
  unfold Component_reset, bind, emit, modify, gets, log, emit, modify,
    set_state, run_hook, raise, ret.
  cbn. destruct (Component.state (units w r)) eqn:Hst; cbn;
    try (eexists; eexists; split; [reflexivity|]; cbn;
         split; [reflexivity|]; split; [now rewrite <- app_assoc|];
         split; [reflexivity|]; split; [repeat constructor|];
         repeat split; auto).
  rewrite upd_same. cbn. rewrite (Hhook eq_refl).
  eexists. eexists. split; [reflexivity|]. cbn.
  split; [reflexivity|]. split; [now rewrite <- !app_assoc|].
  split; [reflexivity|]. split; [repeat constructor|].
  split; [reflexivity|]. split; [reflexivity|]. split.
  - intros r'. destruct (Nat.eqb_spec r' r) as [-> | Hne].
    + now rewrite !upd_same.
    + now rewrite !upd_other by exact Hne.
  - intros r' v. destruct (Nat.eqb_spec r' r) as [-> | Hne].
    + now rewrite !upd_same.
    + now rewrite !upd_other by exact Hne.
Qed.

Lemma reset_loop (l : list Ref) :
  forall w,
    (forall r, In r l -> Component.state (units w r) = STOPPED ->
               Component.hook_raises (units w r) RESET = false) ->
    exists w' mid,
      for_each l Component_reset w = (w', Return tt)
      /\ self w' = self w
      /\ trace w' = trace w ++ mid
      /\ calls_in mid = map (fun r => EvCall r RESET) l
      /\ Forall from_unit mid
      /\ portfolio_state w' = portfolio_state w
      /\ analyzer_state w' = analyzer_state w
      /\ (forall r', Component.state (units w' r') = STOPPED ->
                     Component.state (units w r') = STOPPED)
      /\ (forall r' v, Component.hook_raises (units w' r') v
                       = Component.hook_raises (units w r') v).
Proof.
  induction l as [| r l IH]; intros w Hh.
  - exists w, []. simpl. rewrite app_nil_r. repeat split; auto.
  - destruct (Component_reset_step w r)
      as (w1 & m1 & E1 & S1 & T1 & C1 & F1 & P1 & A1 & D1 & K1).
    { apply Hh. now left. }
    destruct (IH w1) as (w2 & m2 & E2 & S2 & T2 & C2 & F2 & P2 & A2 & D2 & K2).
    { intros r' Hin Hst. rewrite K1. apply Hh; [now right | now apply D1]. }
    exists w2, (m1 ++ m2). split.
    { simpl. unfold bind. rewrite E1. exact E2. }
    split; [congruence|].
    split; [now rewrite T2, T1, app_assoc|].
    split; [now rewrite calls_in_app, C1, C2|].
    split; [apply Forall_app; now split|].
    split; [congruence|]. split; [congruence|].
    split; [intros r' Hst; now apply D1, D2|].
    intros r' v. now rewrite K2, K1.
Qed.

Lemma _reset_unfold (w : World) :
  _reset w =
    match for_each (_actors (self w)) Component_reset w with
    | (w1, Return _) =>
        match for_each (_strategies (self w1)) Component_reset w1 with
        | (w2, Return _) =>
            (with_analyzer_state
               (PortfolioAnalyzer_reset (analyzer_state w2))
               (with_trace
                  ((trace w2 ++ [EvPortfolioReset (_portfolio (self w2))])
                   ++ [EvAnalyzerReset (analyzer (self w2))])
                  (with_portfolio_state
                     (Portfolio_reset (portfolio_state w2)) w2)),
             Return tt)
        | (w2, Raise e) => (w2, Raise e)
        end
    | (w1, Raise e) => (w1, Raise e)
    end.
Proof.
  unfold _reset, bind, gets.
  destruct (for_each (_actors (self w)) Component_reset w) as [w1 [[] | e]];
    [|reflexivity].
  destruct (for_each (_strategies (self w1)) Component_reset w1)
    as [w2 [[] | e]]; reflexivity.
Qed.

(** C10: when the reset hook of no registered child that is STOPPED (the
    one state in which [reset()] runs the hook) raises, the [_reset] hook
    returns normally; it calls [reset()] on every actor and then on every
    strategy, in registration order, and only after the last of these calls
    does it reset the shared Portfolio and then the Trader's
    PortfolioAnalyzer, both of which live outside the two registries. *)
Theorem reset_hook_cascade (w : World) :
  (forall r, In r (_actors (self w) ++ _strategies (self w)) ->
             Component.state (units w r) = STOPPED ->
             Component.hook_raises (units w r) RESET = false) ->
  exists w' mid,
    _reset w = (w', Return tt)
    /\ trace w' = trace w ++ mid
                  ++ [EvPortfolioReset (_portfolio (self w));
                      EvAnalyzerReset (analyzer (self w))]
    /\ calls_in mid = map (fun r => EvCall r RESET)
                          (_actors (self w) ++ _strategies (self w))
    /\ Forall from_unit mid
    /\ portfolio_state w' = Portfolio_reset (portfolio_state w)
    /\ analyzer_state w' = PortfolioAnalyzer_reset (analyzer_state w)
    /\ self w' = self w.
Proof.
  intros Hh.
  destruct (reset_loop (_actors (self w)) w)
    as (w1 & m1 & E1 & S1 & T1 & C1 & F1 & P1 & A1 & D1 & K1).
  { intros r Hin. apply Hh. apply in_or_app. now left. }
  destruct (reset_loop (_strategies (self w)) w1)
    as (w2 & m2 & E2 & S2 & T2 & C2 & F2 & P2 & A2 & D2 & K2).
  { intros r Hin Hst. rewrite K1.
    apply Hh; [apply in_or_app; now right | now apply D1]. }
  exists (with_analyzer_state
            (PortfolioAnalyzer_reset (analyzer_state w2))
            (with_trace
               ((trace w2 ++ [EvPortfolioReset (_portfolio (self w2))])
                ++ [EvAnalyzerReset (analyzer (self w2))])
               (with_portfolio_state
                  (Portfolio_reset (portfolio_state w2)) w2))), (m1 ++ m2).
  split. { rewrite _reset_unfold, E1, S1, E2. reflexivity. }
  cbn. split.
  { rewrite T2, T1, S2, S1, <- !app_assoc. reflexivity. }
  split. { now rewrite calls_in_app, C1, C2, map_app. }
  split. { apply Forall_app. now split. }
  split. { congruence. }
  split. { congruence. }
  congruence.
Qed.

(** *** Registration *)

(** The allocator invariant: every clock in use, the Trader's own and the
    one of any unit, sits below the next free address. *)
Definition clocks_allocated (w : World) : Prop :=
  _clock (self w) < next_ref w
  /\ forall r c, Component.clock (units w r) = Some c -> c < next_ref w.

(** What a successful registration of [unit] leaves behind, going from [w]
    to [w']: the unit holds the Trader's id, the shared Cache and MessageBus,
    a child of the Trader's logger, and the clock [clock], which was
    constructed by this call, has the class of the Trader's clock, and is
    neither the Trader's clock nor the clock of any other unit. *)
Definition wired (w w' : World) (unit clock : Ref) : Prop :=
  Component.trader_id (units w' unit) = Some (id (self w))
  /\ Component.msgbus (units w' unit) = Some (_msgbus (self w))
  /\ Component.cache (units w' unit) = Some (_cache (self w))
  /\ Component.logger (units w' unit) = Some (ChildLogger (_log (self w)))
  /\ Component.clock (units w' unit) = Some clock
  /\ clock = next_ref w
  /\ next_ref w' = S (next_ref w)
  /\ clock_class w' clock = clock_class w (_clock (self w))
  /\ clock <> _clock (self w')
  /\ (forall r, r <> unit -> Component.clock (units w' r) <> Some clock)
  /\ clocks_allocated w'.

(** C5: in a store whose clocks were all handed out by the allocator, a
    registration that passes every guard (Trader not RUNNING, unit not
    registered, not RUNNING, not DISPOSED) returns normally and leaves the
    unit wired: Trader id, shared Cache and MessageBus, a child logger, and
    a clock made by this very call, which is neither the Trader's clock nor
    the clock of any other unit; a strategy also gets the shared Portfolio,
    an actor keeps whatever portfolio field it had; the unit becomes the
    last element of its registry and the other registry is untouched. *)
Theorem add_wires_and_appends (w : World) (unit : Ref) :
  clocks_allocated w ->
  state (self w) <> RUNNING ->
  Component.state (units w unit) <> RUNNING ->
  Component.state (units w unit) <> DISPOSED ->
  (~ registered w unit (_strategies (self w)) ->
   exists w' clock,
     add_strategy unit w = (w', Return tt)
     /\ wired w w' unit clock
     /\ Component.portfolio (units w' unit) = Some (_portfolio (self w))
     /\ _strategies (self w') = _strategies (self w) ++ [unit]
     /\ _actors (self w') = _actors (self w))
  /\
  (~ registered w unit (_actors (self w)) ->
   exists w' clock,
     add_actor unit w = (w', Return tt)
     /\ wired w w' unit clock
     /\ Component.portfolio (units w' unit) = Component.portfolio (units w unit)
     /\ _actors (self w') = _actors (self w) ++ [unit]
     /\ _strategies (self w') = _strategies (self w)).
Proof.
  intros [Hc Hu] Hself Hnr Hnd.
  apply ComponentState_eqb_neq in Hself, Hnr, Hnd.
  assert (Hfresh : forall c' r,
             r <> unit ->
             Component.clock (upd (units w) unit c' r) <> Some (next_ref w)).
  { intros c' r Hne. rewrite upd_other by exact Hne. intros Heq.
    apply Hu in Heq. lia. }
  split; intros Hreg; apply contains_not_registered in Hreg.
  - unfold add_strategy, bind, gets, Condition_not_in, is_running_c,
      is_disposed_c, self_is_running_c, Condition_true, new_clock, get_logger,
      TradingStrategy_register, log, emit, modify, ret.
    rewrite Hreg. cbn. rewrite Hnr. cbn. rewrite Hnd. cbn. rewrite Hself. cbn.
    eexists. exists (next_ref w). split; [reflexivity|]. cbn.
    unfold wired, clocks_allocated. cbn. rewrite !upd_same. cbn.
    repeat split; try reflexivity; try lia.
    + intros r Hne. now apply Hfresh.
    + intros r c. destruct (Nat.eqb_spec r unit) as [-> | Hne].
      * rewrite upd_same. cbn. intros [= <-]. lia.
      * rewrite upd_other by exact Hne. intros Heq. apply Hu in Heq. lia.
  - unfold add_actor, bind, gets, Condition_not_in, is_running_c,
      is_disposed_c, self_is_running_c, Condition_true, new_clock, get_logger,
      Actor_register_base, log, emit, modify, ret.
    rewrite Hreg. cbn. rewrite Hnr. cbn. rewrite Hnd. cbn. rewrite Hself. cbn.
    eexists. exists (next_ref w). split; [reflexivity|]. cbn.
    unfold wired, clocks_allocated. cbn. rewrite !upd_same. cbn.
    repeat split; try reflexivity; try lia.
    + intros r Hne. now apply Hfresh.
    + intros r c. destruct (Nat.eqb_spec r unit) as [-> | Hne].
      * rewrite upd_same. cbn. intros [= <-]. lia.
      * rewrite upd_other by exact Hne. intros Heq. apply Hu in Heq. lia.
Qed.

End TraderProperties.

(** *** Identifier listings *)

Lemma leb_lt_or_eq (a b : string) :
  String.leb a b = true <-> String_as_OT.lt a b \/ a = b.
Proof.
  unfold String.leb. split.
  - destruct (String.compare a b) eqn:Hcmp; intros H; try discriminate.
    + right. now apply String_as_OT.cmp_eq.
    + left. now apply String_as_OT.cmp_lt.
  - intros [H | H].
    + apply String_as_OT.cmp_lt in H. unfold String_as_OT.cmp in H.
      now rewrite H.
    + apply String_as_OT.cmp_eq in H. unfold String_as_OT.cmp in H.
      now rewrite H.
Qed.

Lemma id_le_trans (a b c : Trading.ComponentId) :
  id_le a b -> id_le b c -> id_le a c.
Proof.
  unfold id_le. rewrite !leb_lt_or_eq.
  intros [Hab | ->] [Hbc | ->]; auto.
  left. eapply String_as_OT.lt_trans; eassumption.
Qed.

Lemma sorted_StronglySorted (l : list Trading.ComponentId) :
  StronglySorted id_le (Trading.sorted l).
Proof.
  apply Sorted_StronglySorted.
  - intros a b c. apply id_le_trans.
  - apply sorted_Sorted.
Qed.

(* ================================================================== *)
(** * Facts about dicts                                                *)
(* ================================================================== *)

Section DictFacts.

Variable V : Type.

Lemma Dict_get_set_same (k : string) (v : V) (d : Dict.dict V) :
  Dict.get k (Dict.set k v d) = Some v.
Proof.
  induction d as [| [k' v'] d IH]; simpl.
  - now rewrite String.eqb_refl.
  - destruct (String.eqb k' k) eqn:E; simpl; rewrite E; [reflexivity | exact IH].
Qed.

Lemma Dict_get_set_other (k k' : string) (v : V) (d : Dict.dict V) :
  k' <> k -> Dict.get k' (Dict.set k v d) = Dict.get k' d.
Proof.
  intros Hne. induction d as [| [k0 v0] d IH]; simpl.
  - apply not_eq_sym in Hne. apply String.eqb_neq in Hne. now rewrite Hne.
  - destruct (String.eqb_spec k0 k) as [-> | Hk]; simpl.
    + apply not_eq_sym in Hne. apply String.eqb_neq in Hne. now rewrite Hne.
    + now rewrite IH.
Qed.

Lemma Dict_keys_set_new (k : string) (v : V) (d : Dict.dict V) :
  ~ In k (Dict.keys d) -> Dict.keys (Dict.set k v d) = Dict.keys d ++ [k].
Proof.
  induction d as [| [k' v'] d IH]; simpl; intros Hn; [reflexivity|].
  destruct (String.eqb_spec k' k) as [-> | Hk].
  - exfalso. apply Hn. now left.
  - simpl. f_equal. apply IH. intros H. apply Hn. now right.
Qed.

Lemma Dict_get_None (k : string) (d : Dict.dict V) :
  Dict.get k d = None <-> ~ In k (Dict.keys d).
Proof.
  induction d as [| [k' v'] d IH]; simpl.
  - split; [intros _ [] | reflexivity].
  - destruct (String.eqb_spec k' k) as [-> | Hk].
    + split; [discriminate | intros H; exfalso; apply H; now left].
    + rewrite IH. split; [intros H [E | E]; [contradiction | now apply H]
                         | intros H E; apply H; now right].
Qed.

End DictFacts.

(* ================================================================== *)
(** * All operations of the Trader: frames and invariants              *)
(* ================================================================== *)

Section TraderOperations.

Import Trading.

Context {ext : Collaborators}.

(** The operations of the Trader that write to the store. *)
Inductive Op : Type :=
| OpAddStrategy (strategy : Ref)
| OpAddActor (actor : Ref)
| OpAddStrategies (strategies : option (list Ref))
| OpAddActors (actors : option (list Ref))
| OpClearStrategies
| OpClearActors
| OpStart
| OpStop
| OpReset
| OpDispose.

Definition run_op (o : Op) : M unit :=
  match o with
  | OpAddStrategy strategy => add_strategy strategy
  | OpAddActor actor => add_actor actor
  | OpAddStrategies strategies => add_strategies strategies
  | OpAddActors actors => add_actors actors
  | OpClearStrategies => clear_strategies
  | OpClearActors => clear_actors
  | OpStart => _start
  | OpStop => _stop
  | OpReset => _reset
  | OpDispose => _dispose
  end.

(** The store after a sequence of operations; an operation that raises
    leaves the store it reached, and the caller goes on with it. *)
Fixpoint run_ops (os : list Op) (w : World) : World :=
  match os with
  | [] => w
  | o :: os' => run_ops os' (fst (run_op o w))
  end.

(** [kept w w']: going from [w] to [w'] the Trader object, the allocator,
    and the identity and clock of every unit are the same. *)
Definition kept (w w' : World) : Prop :=
  self w' = self w
  /\ next_ref w' = next_ref w
  /\ forall r, Component.id (units w' r) = Component.id (units w r)
               /\ Component.clock (units w' r) = Component.clock (units w r).

Definition Kept {A : Type} (m : M A) : Prop := forall w, kept w (fst (m w)).

Lemma kept_refl (w : World) : kept w w.
Proof. repeat split. Qed.

Lemma kept_trans (w1 w2 w3 : World) : kept w1 w2 -> kept w2 w3 -> kept w1 w3.
Proof.
  intros (S1 & N1 & U1) (S2 & N2 & U2). repeat split; try congruence.
  - destruct (U1 r), (U2 r). congruence.
  - destruct (U1 r), (U2 r). congruence.
Qed.

Lemma Kept_ret {A : Type} (a : A) : Kept (ret a).
Proof. intros w. apply kept_refl. Qed.

Lemma Kept_raise {A : Type} (e : Exn) : Kept (@raise ext A e).
Proof. intros w. apply kept_refl. Qed.

Lemma Kept_gets {A : Type} (f : World -> A) : Kept (gets f).
Proof. intros w. apply kept_refl. Qed.

Lemma Kept_bind {A B : Type} (m : M A) (k : A -> M B) :
  Kept m -> (forall a, Kept (k a)) -> Kept (bind m k).
Proof.
  intros Hm Hk w. unfold bind. specialize (Hm w).
  destruct (m w) as [w1 [a | e]]; cbn in *; [|exact Hm].
  eapply kept_trans; [exact Hm | apply Hk].
Qed.

Lemma Kept_emit (e : Event) : Kept (emit e).
Proof. intros w. repeat split. Qed.

Lemma Kept_log (o : Origin) (lvl : LogLevel) (m : Msg) : Kept (log o lvl m).
Proof. apply Kept_emit. Qed.

Lemma Kept_set_state (r : Ref) (st : ComponentState) : Kept (set_state r st).
Proof.
  intros w. cbn. repeat split; cbn;
    (destruct (Nat.eqb_spec r0 r) as [-> | Hne];
     [now rewrite upd_same | now rewrite upd_other by exact Hne]).
Qed.

Lemma Kept_run_hook (r : Ref) (v : Verb) : Kept (run_hook r v).
Proof.
  unfold run_hook. apply Kept_bind; [apply Kept_emit|]. intros _.
  apply Kept_bind; [apply Kept_gets|]. intros [|];
    [apply Kept_raise | apply Kept_ret].
Qed.

Lemma Kept_for_each {A : Type} (body : A -> M unit) (l : list A) :
  (forall x, Kept (body x)) -> Kept (for_each l body).
Proof.
  intros Hb. induction l as [| x l IH]; simpl; [apply Kept_ret|].
  apply Kept_bind; [apply Hb | intros _; exact IH].
Qed.

Ltac kept_steps :=
  repeat first
    [ apply Kept_ret | apply Kept_raise | apply Kept_gets | apply Kept_emit
    | apply Kept_log | apply Kept_set_state | apply Kept_run_hook
    | (apply Kept_bind; [| intros ?])
    | match goal with
      | |- Kept (match ?x with _ => _ end) => destruct x
      end ].

Lemma Kept_Component_start (r : Ref) : Kept (Component_start r).
Proof. unfold Component_start. kept_steps. Qed.

Lemma Kept_Component_stop (r : Ref) : Kept (Component_stop r).
Proof. unfold Component_stop. kept_steps. Qed.

Lemma Kept_Component_reset (r : Ref) : Kept (Component_reset r).
Proof. unfold Component_reset. kept_steps. Qed.

Lemma Kept_Component_dispose (r : Ref) : Kept (Component_dispose r).
Proof. unfold Component_dispose. kept_steps. Qed.

Lemma Kept__start : Kept _start.
Proof.
  unfold _start. kept_steps;
    apply Kept_for_each; intros x; apply Kept_Component_start.
Qed.

Lemma Kept__stop : Kept _stop.
Proof.
  unfold _stop. kept_steps; apply Kept_for_each; intros x;
    unfold is_running_c; kept_steps; apply Kept_Component_stop.
Qed.

Lemma Kept_modify (f : World -> World) :
  (forall w, kept w (f w)) -> Kept (modify f).
Proof. intros H w. apply H. Qed.

Lemma Kept__reset : Kept _reset.
Proof.
  unfold _reset. kept_steps;
    try (apply Kept_for_each; intros x; apply Kept_Component_reset);
    apply Kept_modify; intros w; repeat split.
Qed.

Lemma Kept__dispose : Kept _dispose.
Proof.
  unfold _dispose. kept_steps;
    apply Kept_for_each; intros x; apply Kept_Component_dispose.
Qed.

(** *** The three ways a registration can end *)

(** The unit is in a state a registration accepts. *)
Definition admissible (w : World) (u : Ref) : Prop :=
  Component.state (units w u) <> RUNNING
  /\ Component.state (units w u) <> DISPOSED.

(** The unit [u] of [w] once wired by the Trader, with the clock at the
    next free address; [portfolio] is the portfolio field it ends with. *)
Definition wired_unit (w : World) (u : Ref) (portfolio : option Ref)
    : Component.Component :=
  Component.mk (Component.id (units w u)) (Component.state (units w u))
    (Some (id (self w))) portfolio (Some (_msgbus (self w)))
    (Some (_cache (self w))) (Some (next_ref w))
    (Some (ChildLogger (_log (self w)))) (Component.hook_raises (units w u)).

(** The store an accepted [add_strategy] leaves. *)
Definition after_add_strategy (w : World) (s : Ref) : World :=
  mkWorld
    (with_strategies (_strategies (self w) ++ [s]) (self w))
    (upd (units w) s (wired_unit w s (Some (_portfolio (self w)))))
    (upd (clock_class w) (next_ref w) (clock_class w (_clock (self w))))
    (S (next_ref w)) (cache_data w) (portfolio_state w) (analyzer_state w)
    ((trace w ++ [EvRegisterOmsType (_exec_engine (self w)) s])
     ++ [EvLog ByTrader INFO (Fmt "Registered TradingStrategy " s ".")]).

(** The store an accepted [add_actor] leaves. *)
Definition after_add_actor (w : World) (a : Ref) : World :=
  mkWorld
    (with_actors (_actors (self w) ++ [a]) (self w))
    (upd (units w) a (wired_unit w a (Component.portfolio (units w a))))
    (upd (clock_class w) (next_ref w) (clock_class w (_clock (self w))))
    (S (next_ref w)) (cache_data w) (portfolio_state w) (analyzer_state w)
    (trace w ++ [EvLog ByTrader INFO (Fmt "Registered Component " a ".")]).

Lemma add_strategy_cases (w : World) (s : Ref) :
  (exists e, add_strategy s w = (w, Raise e)
             /\ (registered w s (_strategies (self w)) \/ ~ admissible w s))
  \/ (state (self w) = RUNNING
      /\ ~ registered w s (_strategies (self w))
      /\ admissible w s
      /\ add_strategy s w =
           (with_trace
              (trace w ++ [EvLog ByTrader ERROR
                             (Lit "Cannot add a strategy to a running trader.")])
              w, Return tt))
  \/ (state (self w) <> RUNNING
      /\ ~ registered w s (_strategies (self w))
      /\ admissible w s
      /\ add_strategy s w = (after_add_strategy w s, Return tt)).
Proof.
  unfold add_strategy, bind, gets, Condition_not_in, is_running_c,
    is_disposed_c, self_is_running_c, Condition_true, new_clock, get_logger,
    TradingStrategy_register, log, emit, modify, raise, ret, admissible.
  destruct (contains w s (_strategies (self w))) eqn:Hc.
  { left. eexists. split; [reflexivity|]. left.
    now apply contains_registered. }
  apply contains_not_registered in Hc. cbn.
  destruct (ComponentState_eqb (Component.state (units w s)) RUNNING) eqn:Hr.
  { left. eexists. split; [reflexivity|]. right.
    apply ComponentState_eqb_eq in Hr. tauto. }
  apply ComponentState_eqb_neq in Hr. cbn.
  destruct (ComponentState_eqb (Component.state (units w s)) DISPOSED) eqn:Hd.
  { left. eexists. split; [reflexivity|]. right.
    apply ComponentState_eqb_eq in Hd. tauto. }
  apply ComponentState_eqb_neq in Hd. cbn.
  destruct (ComponentState_eqb (state (self w)) RUNNING) eqn:Hs.
  - right. left. apply ComponentState_eqb_eq in Hs.
    repeat split; try assumption.
  - right. right. apply ComponentState_eqb_neq in Hs.
    repeat split; try assumption.
Qed.

Lemma add_actor_cases (w : World) (a : Ref) :
  (exists e, add_actor a w = (w, Raise e)
             /\ (registered w a (_actors (self w)) \/ ~ admissible w a))
  \/ (state (self w) = RUNNING
      /\ ~ registered w a (_actors (self w))
      /\ admissible w a
      /\ add_actor a w =
           (with_trace
              (trace w ++ [EvLog ByTrader ERROR
                             (Lit "Cannot add component to a running trader.")])
              w, Return tt))
  \/ (state (self w) <> RUNNING
      /\ ~ registered w a (_actors (self w))
      /\ admissible w a
      /\ add_actor a w = (after_add_actor w a, Return tt)).
Proof.
  unfold add_actor, bind, gets, Condition_not_in, is_running_c,
    is_disposed_c, self_is_running_c, Condition_true, new_clock, get_logger,
    Actor_register_base, log, emit, modify, raise, ret, admissible.
  destruct (contains w a (_actors (self w))) eqn:Hc.
  { left. eexists. split; [reflexivity|]. left.
    now apply contains_registered. }
  apply contains_not_registered in Hc. cbn.
  destruct (ComponentState_eqb (Component.state (units w a)) RUNNING) eqn:Hr.
  { left. eexists. split; [reflexivity|]. right.
    apply ComponentState_eqb_eq in Hr. tauto. }
  apply ComponentState_eqb_neq in Hr. cbn.
  destruct (ComponentState_eqb (Component.state (units w a)) DISPOSED) eqn:Hd.
  { left. eexists. split; [reflexivity|]. right.
    apply ComponentState_eqb_eq in Hd. tauto. }
  apply ComponentState_eqb_neq in Hd. cbn.
  destruct (ComponentState_eqb (state (self w)) RUNNING) eqn:Hs.
  - right. left. apply ComponentState_eqb_eq in Hs.
    repeat split; try assumption.
  - right. right. apply ComponentState_eqb_neq in Hs.
    repeat split; try assumption.
Qed.

Lemma add_strategy_accepted (w : World) (s : Ref) :
  state (self w) <> RUNNING ->
  ~ registered w s (_strategies (self w)) ->
  admissible w s ->
  add_strategy s w = (after_add_strategy w s, Return tt).
Proof.
  intros Hs Hn Ha.
  destruct (add_strategy_cases w s)
    as [(e & _ & [H | H]) | [(H & _) | (_ & _ & _ & E)]];
    [contradiction | contradiction | contradiction | exact E].
Qed.

Lemma add_strategy_rejected (w : World) (s : Ref) :
  registered w s (_strategies (self w)) \/ ~ admissible w s ->
  exists e, add_strategy s w = (w, Raise e).
Proof.
  intros H.
  destruct (add_strategy_cases w s)
    as [(e & E & _) | [(_ & Hn & Ha & _) | (_ & Hn & Ha & _)]];
    [eauto | tauto | tauto].
Qed.

Lemma add_actor_accepted (w : World) (a : Ref) :
  state (self w) <> RUNNING ->
  ~ registered w a (_actors (self w)) ->
  admissible w a ->
  add_actor a w = (after_add_actor w a, Return tt).
Proof.
  intros Hs Hn Ha.
  destruct (add_actor_cases w a)
    as [(e & _ & [H | H]) | [(H & _) | (_ & _ & _ & E)]];
    [contradiction | contradiction | contradiction | exact E].
Qed.

Lemma add_actor_rejected (w : World) (a : Ref) :
  registered w a (_actors (self w)) \/ ~ admissible w a ->
  exists e, add_actor a w = (w, Raise e).
Proof.
  intros H.
  destruct (add_actor_cases w a)
    as [(e & E & _) | [(_ & Hn & Ha & _) | (_ & Hn & Ha & _)]];
    [eauto | tauto | tauto].
Qed.

Lemma after_add_strategy_unit (w : World) (s r : Ref) :
  Component.id (units (after_add_strategy w s) r) = Component.id (units w r)
  /\ Component.state (units (after_add_strategy w s) r)
     = Component.state (units w r)
  /\ Component.hook_raises (units (after_add_strategy w s) r)
     = Component.hook_raises (units w r)
  /\ (r <> s -> units (after_add_strategy w s) r = units w r).
Proof.
  cbn. destruct (Nat.eqb_spec r s) as [-> | Hne].
  - rewrite upd_same. repeat split. congruence.
  - rewrite upd_other by exact Hne. repeat split.
Qed.

Lemma after_add_actor_unit (w : World) (a r : Ref) :
  Component.id (units (after_add_actor w a) r) = Component.id (units w r)
  /\ Component.state (units (after_add_actor w a) r)
     = Component.state (units w r)
  /\ Component.hook_raises (units (after_add_actor w a) r)
     = Component.hook_raises (units w r)
  /\ (r <> a -> units (after_add_actor w a) r = units w r).
Proof.
  cbn. destruct (Nat.eqb_spec r a) as [-> | Hne].
  - rewrite upd_same. repeat split. congruence.
  - rewrite upd_other by exact Hne. repeat split.
Qed.

(** *** Whatever every operation preserves *)

Lemma for_each_preserves {A : Type} (P : World -> Prop) (body : A -> M unit) :
  (forall x w, P w -> P (fst (body x w))) ->
  forall l w, P w -> P (fst (for_each l body w)).
Proof.
  intros Hb. induction l as [| x l IH]; intros w Hw; [exact Hw|].
  simpl. unfold bind. specialize (Hb x w Hw).
  destruct (body x w) as [w1 [[] | e]]; cbn in *; [now apply IH | exact Hb].
Qed.

Section Invariant.

Variable P : World -> Prop.

Hypothesis P_kept : forall w w', kept w w' -> P w -> P w'.

Hypothesis P_add_strategy :
  forall w s,
    state (self w) <> RUNNING ->
    ~ registered w s (_strategies (self w)) ->
    admissible w s ->
    P w -> P (after_add_strategy w s).

Hypothesis P_add_actor :
  forall w a,
    state (self w) <> RUNNING ->
    ~ registered w a (_actors (self w)) ->
    admissible w a ->
    P w -> P (after_add_actor w a).

Hypothesis P_clear_strategies :
  forall w, P w -> P (with_self (with_strategies [] (self w)) w).

Hypothesis P_clear_actors :
  forall w, P w -> P (with_self (with_actors [] (self w)) w).

Lemma add_strategy_preserves (s : Ref) (w : World) :
  P w -> P (fst (add_strategy s w)).
Proof.
  intros Hw.
  destruct (add_strategy_cases w s)
    as [(e & E & _) | [(_ & _ & _ & E) | (Hs & Hn & Ha & E)]];
    rewrite E; cbn.
  - exact Hw.
  - apply (P_kept w); [repeat split | exact Hw].
  - now apply P_add_strategy.
Qed.

Lemma add_actor_preserves (a : Ref) (w : World) :
  P w -> P (fst (add_actor a w)).
Proof.
  intros Hw.
  destruct (add_actor_cases w a)
    as [(e & E & _) | [(_ & _ & _ & E) | (Hs & Hn & Ha & E)]];
    rewrite E; cbn.
  - exact Hw.
  - apply (P_kept w); [repeat split | exact Hw].
  - now apply P_add_actor.
Qed.

Lemma run_op_preserves (o : Op) (w : World) : P w -> P (fst (run_op o w)).
Proof.
  intros Hw. destruct o as [s | a | l | l | | | | | |]; cbn [run_op].
  - now apply add_strategy_preserves.
  - now apply add_actor_preserves.
  - unfold add_strategies, bind.
    destruct l as [[| x l] |]; cbn; try exact Hw.
    apply (for_each_preserves P add_strategy add_strategy_preserves (x :: l)).
    exact Hw.
  - unfold add_actors, bind.
    destruct l as [[| x l] |]; cbn; try exact Hw.
    apply (for_each_preserves P add_actor add_actor_preserves (x :: l)).
    exact Hw.
  - unfold clear_strategies, bind, self_is_running_c, gets.
    destruct (ComponentState_eqb (state (self w)) RUNNING).
    + apply (P_kept w); [repeat split | exact Hw].
    + cbn.
      pose proof (Kept_for_each Component_dispose (_strategies (self w))
                    Kept_Component_dispose w) as Hk.
      destruct (for_each (_strategies (self w)) Component_dispose w)
        as [w1 [[] | e]]; cbn in *.
      * apply P_clear_strategies. now apply (P_kept w).
      * now apply (P_kept w).
  - unfold clear_actors, bind, self_is_running_c, gets.
    destruct (ComponentState_eqb (state (self w)) RUNNING).
    + apply (P_kept w); [repeat split | exact Hw].
    + cbn.
      pose proof (Kept_for_each Component_dispose (_actors (self w))
                    Kept_Component_dispose w) as Hk.
      destruct (for_each (_actors (self w)) Component_dispose w)
        as [w1 [[] | e]]; cbn in *.
      * apply P_clear_actors. now apply (P_kept w).
      * now apply (P_kept w).
  - apply (P_kept w); [apply Kept__start | exact Hw].
  - apply (P_kept w); [apply Kept__stop | exact Hw].
  - apply (P_kept w); [apply Kept__reset | exact Hw].
  - apply (P_kept w); [apply Kept__dispose | exact Hw].
Qed.

Lemma run_ops_preserves (os : list Op) :
  forall w, P w -> P (run_ops os w).
Proof.
  induction os as [| o os IH]; intros w Hw; [exact Hw|].
  simpl. apply IH. now apply run_op_preserves.
Qed.

End Invariant.

(** *** Identifiers stay unique within a registry *)

Definition ids_of (w : World) (registry : list Ref) : list ComponentId :=
  map (fun r => Component.id (units w r)) registry.

(** No two entries of a registry have the same identifier. *)
Definition registries_unique (w : World) : Prop :=
  NoDup (ids_of w (_actors (self w)))
  /\ NoDup (ids_of w (_strategies (self w))).

Lemma ids_of_ext (w w' : World) (l : list Ref) :
  (forall r, Component.id (units w' r) = Component.id (units w r)) ->
  ids_of w' l = ids_of w l.
Proof. intros H. unfold ids_of. apply map_ext. exact H. Qed.

Lemma NoDup_snoc {A : Type} (l : list A) (x : A) :
  NoDup l -> ~ In x l -> NoDup (l ++ [x]).
Proof.
  intros Hl Hx. apply NoDup_app.
  - exact Hl.
  - repeat constructor. intros [].
  - intros a Ha [<- | []]. contradiction.
Qed.

Lemma not_registered_not_In (w : World) (u : Ref) (l : list Ref) :
  ~ registered w u l -> ~ In (Component.id (units w u)) (ids_of w l).
Proof.
  intros Hn Hin. apply Hn. unfold ids_of in Hin.
  apply in_map_iff in Hin. destruct Hin as (r & Hr & Hin).
  exists r. split; assumption.
Qed.

(** X1: whatever sequence of registrations, bulk registrations, clears
    and lifecycle hooks runs on a Trader, and whether or not some of them
    raise, a registry whose identifiers are pairwise distinct keeps them
    pairwise distinct. *)
Theorem registry_ids_stay_unique (os : list Op) (w : World) :
  registries_unique w -> registries_unique (run_ops os w).
Proof.
  apply run_ops_preserves; clear w.
  - intros w w' (Hs & _ & Hu) [Ha Hst]. unfold registries_unique.
    rewrite Hs, !(ids_of_ext w w') by (intros r; apply Hu). now split.
  - intros w s _ Hn _ [Ha Hst]. unfold registries_unique.
    rewrite !(ids_of_ext w (after_add_strategy w s))
      by (intros r; apply after_add_strategy_unit).
    change (_actors (self (after_add_strategy w s))) with (_actors (self w)).
    change (_strategies (self (after_add_strategy w s)))
      with (_strategies (self w) ++ [s]).
    split; [exact Ha|]. unfold ids_of. rewrite map_app.
    apply NoDup_snoc; [exact Hst | now apply not_registered_not_In].
  - intros w a _ Hn _ [Ha Hst]. unfold registries_unique.
    rewrite !(ids_of_ext w (after_add_actor w a))
      by (intros r; apply after_add_actor_unit).
    change (_strategies (self (after_add_actor w a)))
      with (_strategies (self w)).
    change (_actors (self (after_add_actor w a)))
      with (_actors (self w) ++ [a]).
    split; [|exact Hst]. unfold ids_of. rewrite map_app.
    apply NoDup_snoc; [exact Ha | now apply not_registered_not_In].
  - intros w [Ha _]. split; [exact Ha | constructor].
  - intros w [_ Hst]. split; [constructor | exact Hst].
Qed.

(** *** Clocks stay isolated *)

(** Among the units of [l], no clock is the Trader's and no clock is held
    twice. *)
Definition isolated_in (w : World) (l : list Ref) : Prop :=
  forall r c,
    In r l -> Component.clock (units w r) = Some c ->
    c <> _clock (self w)
    /\ forall r', In r' l -> r' <> r -> Component.clock (units w r') <> Some c.

Definition clock_isolated (w : World) : Prop :=
  isolated_in w (_actors (self w) ++ _strategies (self w)).

Lemma isolated_in_sub (w w' : World) (l l' : list Ref) :
  (forall r, In r l' -> In r l) ->
  _clock (self w') = _clock (self w) ->
  (forall r, Component.clock (units w' r) = Component.clock (units w r)) ->
  isolated_in w l -> isolated_in w' l'.
Proof.
  intros Hsub Hc Hu Hiso r c Hin Hr. rewrite Hu in Hr.
  destruct (Hiso r c (Hsub r Hin) Hr) as [H1 H2]. split; [congruence|].
  intros r' Hin' Hne. rewrite Hu. now apply H2; [apply Hsub|].
Qed.

Lemma isolated_in_wire (w w' : World) (l l' : list Ref) (u : Ref) :
  clocks_allocated w ->
  (forall r, In r l' -> r = u \/ In r l) ->
  _clock (self w') = _clock (self w) ->
  (forall r, r <> u ->
             Component.clock (units w' r) = Component.clock (units w r)) ->
  Component.clock (units w' u) = Some (next_ref w) ->
  isolated_in w l -> isolated_in w' l'.
Proof.
  intros [Hc Hall] Hsub Hclk Hother Hu Hiso r c Hin Hr.
  destruct (Nat.eq_dec r u) as [-> | Hne].
  - rewrite Hu in Hr. injection Hr as <-. split; [lia|].
    intros r' _ Hne'. rewrite (Hother r' Hne'). intros Heq.
    apply Hall in Heq. lia.
  - rewrite (Hother r Hne) in Hr.
    destruct (Hsub r Hin) as [-> | Hin0]; [contradiction|].
    destruct (Hiso r c Hin0 Hr) as [H1 H2]. split; [congruence|].
    intros r' Hin' Hne'. destruct (Nat.eq_dec r' u) as [-> | Hne''].
    + rewrite Hu. intros [= <-]. apply Hall in Hr. lia.
    + rewrite (Hother r' Hne''). apply H2; [|exact Hne'].
      destruct (Hsub r' Hin') as [-> | H]; [contradiction | exact H].
Qed.

(** X2: clock isolation is an invariant of the Trader.  In a store whose
    clocks were all handed out by the allocator, if no registered unit
    shares a clock with the Trader or with another registered unit, the
    same holds after any sequence of Trader operations, whether or not they
    raise. *)
Theorem clocks_stay_isolated (os : list Op) (w : World) :
  clocks_allocated w /\ clock_isolated w ->
  clocks_allocated (run_ops os w) /\ clock_isolated (run_ops os w).
Proof.
  apply (run_ops_preserves (fun w => clocks_allocated w /\ clock_isolated w));
    clear w.
  - intros w w' (Hs & Hn & Hu) [[Hc Hall] Hiso]. split.
    + split; [rewrite Hs, Hn; exact Hc|].
      intros r c Hr. rewrite Hn. apply (Hall r). now rewrite <- (proj2 (Hu r)).
    + unfold clock_isolated. rewrite Hs.
      apply (isolated_in_sub w w' (_actors (self w) ++ _strategies (self w)));
        [auto | now rewrite Hs | intros r; apply Hu | exact Hiso].
  - intros w s _ _ _ [Hal Hiso]. split.
    + destruct Hal as [Hc Hall]. split; [cbn; lia|].
      intros r c. cbn. destruct (Nat.eqb_spec r s) as [-> | Hne].
      * rewrite upd_same. cbn. intros [= <-]. lia.
      * rewrite upd_other by exact Hne. intros Hr. apply Hall in Hr. lia.
    + unfold clock_isolated.
      apply (isolated_in_wire w (after_add_strategy w s)
               (_actors (self w) ++ _strategies (self w)) _ s);
        try assumption.
      * cbn. intros r Hin. rewrite app_assoc in Hin.
        apply in_app_or in Hin. destruct Hin as [Hin | [<- | []]]; auto.
      * reflexivity.
      * intros r Hne. cbn. now rewrite upd_other by exact Hne.
      * cbn. now rewrite upd_same.
  - intros w a _ _ _ [Hal Hiso]. split.
    + destruct Hal as [Hc Hall]. split; [cbn; lia|].
      intros r c. cbn. destruct (Nat.eqb_spec r a) as [-> | Hne].
      * rewrite upd_same. cbn. intros [= <-]. lia.
      * rewrite upd_other by exact Hne. intros Hr. apply Hall in Hr. lia.
    + unfold clock_isolated.
      apply (isolated_in_wire w (after_add_actor w a)
               (_actors (self w) ++ _strategies (self w)) _ a);
        try assumption.
      * cbn. intros r Hin. apply in_app_or in Hin.
        destruct Hin as [Hin | Hin].
        -- apply in_app_or in Hin. destruct Hin as [Hin | [<- | []]]; auto.
           right. apply in_or_app. now left.
        -- right. apply in_or_app. now right.
      * reflexivity.
      * intros r Hne. cbn. now rewrite upd_other by exact Hne.
      * cbn. now rewrite upd_same.
  - intros w [Hal Hiso]. split; [exact Hal|].
    apply (isolated_in_sub w _ (_actors (self w) ++ _strategies (self w)));
      [| reflexivity | reflexivity | exact Hiso].
    cbn. intros r Hin. rewrite app_nil_r in Hin. apply in_or_app. now left.
  - intros w [Hal Hiso]. split; [exact Hal|].
    apply (isolated_in_sub w _ (_actors (self w) ++ _strategies (self w)));
      [| reflexivity | reflexivity | exact Hiso].
    cbn. intros r Hin. apply in_or_app. now right.
Qed.

(** *** A running Trader *)

(** The operations that register or clear. *)
Definition changes_registry (o : Op) : Prop :=
  match o with
  | OpAddStrategy _ | OpAddActor _ | OpAddStrategies _ | OpAddActors _
  | OpClearStrategies | OpClearActors => True
  | _ => False
  end.

(** An error record of the Trader's logger. *)
Definition trader_error (e : Event) : Prop :=
  exists m, e = EvLog ByTrader ERROR m.

(** [w'] is [w] with [added] appended to the trace, and nothing else. *)
Definition only_traced (w w' : World) (added : list Event) : Prop :=
  w' = with_trace (trace w ++ added) w.

Lemma only_traced_nil (w : World) : only_traced w w [].
Proof. unfold only_traced. destruct w. cbn. now rewrite app_nil_r. Qed.

Lemma only_traced_trans (w1 w2 w3 : World) (a b : list Event) :
  only_traced w1 w2 a -> only_traced w2 w3 b -> only_traced w1 w3 (a ++ b).
Proof.
  unfold only_traced. intros -> ->. cbn. now rewrite app_assoc.
Qed.

Lemma running_for_each (body : Ref -> M unit) :
  (forall x w, state (self w) = RUNNING ->
     exists added, only_traced w (fst (body x w)) added
                   /\ Forall trader_error added) ->
  forall l w, state (self w) = RUNNING ->
    exists added, only_traced w (fst (for_each l body w)) added
                  /\ Forall trader_error added.
Proof.
  intros Hb. induction l as [| x l IH]; intros w Hw.
  - exists []. split; [apply only_traced_nil | constructor].
  - simpl. unfold bind. destruct (Hb x w Hw) as (a & Ha & Fa).
    destruct (body x w) as [w1 [[] | e]]; cbn in *.
    + destruct (IH w1) as (b & Hb' & Fb).
      { rewrite Ha. exact Hw. }
      exists (a ++ b). split.
      * eapply only_traced_trans; eassumption.
      * apply Forall_app. now split.
    + exists a. now split.
Qed.

Lemma running_add_strategy (s : Ref) (w : World) :
  state (self w) = RUNNING ->
  exists added, only_traced w (fst (add_strategy s w)) added
                /\ Forall trader_error added.
Proof.
  intros Hw.
  destruct (add_strategy_cases w s)
    as [(e & E & _) | [(_ & _ & _ & E) | (Hs & _)]];
    [| | contradiction]; rewrite E; cbn.
  - exists []. split; [apply only_traced_nil | constructor].
  - eexists. split; [reflexivity|]. repeat constructor. eexists. reflexivity.
Qed.

Lemma running_add_actor (a : Ref) (w : World) :
  state (self w) = RUNNING ->
  exists added, only_traced w (fst (add_actor a w)) added
                /\ Forall trader_error added.
Proof.
  intros Hw.
  destruct (add_actor_cases w a)
    as [(e & E & _) | [(_ & _ & _ & E) | (Hs & _)]];
    [| | contradiction]; rewrite E; cbn.
  - exists []. split; [apply only_traced_nil | constructor].
  - eexists. split; [reflexivity|]. repeat constructor. eexists. reflexivity.
Qed.

(** X3: while the Trader is RUNNING, no registration, bulk registration
    or clear changes anything but the log: whatever the arguments, and
    whether the call raises or returns, the store it leaves is the store it
    was given with error records of the Trader appended, so no unit is
    wired, disposed, added or removed. *)
Theorem running_trader_only_logs (o : Op) (w : World) :
  state (self w) = RUNNING ->
  changes_registry o ->
  exists added,
    fst (run_op o w) = with_trace (trace w ++ added) w
    /\ Forall trader_error added.
Proof.
  intros Hw Ho. destruct o as [s | a | l | l | | | | | |];
    try contradiction; cbn [run_op].
  - now apply running_add_strategy.
  - now apply running_add_actor.
  - unfold add_strategies, bind.
    destruct l as [[| x l] |]; cbn;
      try (exists []; split; [apply only_traced_nil | constructor]).
    now apply (running_for_each add_strategy running_add_strategy (x :: l)).
  - unfold add_actors, bind.
    destruct l as [[| x l] |]; cbn;
      try (exists []; split; [apply only_traced_nil | constructor]).
    now apply (running_for_each add_actor running_add_actor (x :: l)).
  - unfold clear_strategies, bind, self_is_running_c, gets. rewrite Hw. cbn.
    eexists. split; [reflexivity|]. repeat constructor. eexists. reflexivity.
  - unfold clear_actors, bind, self_is_running_c, gets. rewrite Hw. cbn.
    eexists. split; [reflexivity|]. repeat constructor. eexists. reflexivity.
Qed.

(** *** Bulk registration *)

(** [add_strategies] and [add_actors] given no list or an empty list
    raise [ValueError] and leave the store as it was, whatever the state of
    the Trader. *)
Lemma bulk_add_rejects_empty (w : World) :
  add_strategies None w = (w, Raise (ValueError "strategies"))
  /\ add_strategies (Some []) w = (w, Raise (ValueError "strategies"))
  /\ add_actors None w = (w, Raise (ValueError "actors"))
  /\ add_actors (Some []) w = (w, Raise (ValueError "actors")).
Proof. repeat split. Qed.

(** The units of [l] can be registered one after the other in [registry]:
    their identifiers are pairwise distinct, none of them is registered,
    and each is in an admissible state. *)
Definition registrable (w : World) (registry l : list Ref) : Prop :=
  NoDup (ids_of w l)
  /\ forall u, In u l -> ~ registered w u registry /\ admissible w u.

Lemma registered_ext (w w' : World) (u : Ref) (l : list Ref) :
  (forall r, Component.id (units w' r) = Component.id (units w r)) ->
  registered w' u l <-> registered w u l.
Proof.
  intros H. unfold registered. split; intros (r & Hin & Hr); exists r;
    (split; [exact Hin|]); rewrite ?H in *; congruence.
Qed.

Lemma registered_app (w : World) (u : Ref) (l1 l2 : list Ref) :
  registered w u (l1 ++ l2) <-> registered w u l1 \/ registered w u l2.
Proof.
  unfold registered. split.
  - intros (r & Hin & Hr). apply in_app_or in Hin.
    destruct Hin; [left | right]; exists r; now split.
  - intros [(r & Hin & Hr) | (r & Hin & Hr)]; exists r;
      (split; [apply in_or_app; auto | exact Hr]).
Qed.

Lemma admissible_ext (w w' : World) (u : Ref) :
  (forall r, Component.state (units w' r) = Component.state (units w r)) ->
  admissible w' u <-> admissible w u.
Proof. intros H. unfold admissible. now rewrite H. Qed.

Lemma registrable_tail (w w' : World) (registry : list Ref) (x : Ref)
    (l : list Ref) :
  (forall r, Component.id (units w' r) = Component.id (units w r)) ->
  (forall r, Component.state (units w' r) = Component.state (units w r)) ->
  registrable w registry (x :: l) ->
  registrable w' (registry ++ [x]) l /\ ~ In x l.
Proof.
  intros Hid Hst [Hnd Hall]. cbn in Hnd. apply NoDup_cons_iff in Hnd.
  destruct Hnd as [Hx Hnd]. split; [split|].
  - now rewrite (ids_of_ext w w') by exact Hid.
  - intros u Hu. split.
    + rewrite (registered_ext w w') by exact Hid. rewrite registered_app.
      intros [H | (r & [<- | []] & Hr)].
      * destruct (Hall u (or_intror Hu)) as [Hn _]. contradiction.
      * apply Hx. rewrite Hr.
        now apply (in_map (fun r => Component.id (units w r))).
    + rewrite (admissible_ext w w') by exact Hst.
      now apply (Hall u (or_intror Hu)).
  - intros Hin. apply Hx.
    now apply (in_map (fun r => Component.id (units w r))).
Qed.

Lemma for_each_add_strategy (l : list Ref) :
  forall w,
    state (self w) <> RUNNING ->
    registrable w (_strategies (self w)) l ->
    exists w',
      for_each l add_strategy w = (w', Return tt)
      /\ _strategies (self w') = _strategies (self w) ++ l
      /\ _actors (self w') = _actors (self w)
      /\ state (self w') = state (self w)
      /\ next_ref w' = next_ref w + List.length l
      /\ (forall r, Component.id (units w' r) = Component.id (units w r))
      /\ (forall r, Component.state (units w' r)
                    = Component.state (units w r))
      /\ (forall r, ~ In r l -> units w' r = units w r)
      /\ (forall i u, nth_error l i = Some u ->
                      Component.clock (units w' u) = Some (next_ref w + i)).
Proof.
  induction l as [| x l IH]; intros w Hs Hreg.
  - exists w. cbn. rewrite app_nil_r, Nat.add_0_r. repeat split.
    intros [| i] u; discriminate.
  - pose proof (after_add_strategy_unit w x) as Hunit.
    destruct (registrable_tail w (after_add_strategy w x) _ x l
                (fun r => proj1 (Hunit r))
                (fun r => proj1 (proj2 (Hunit r))) Hreg) as [Hreg' Hx].
    destruct Hreg as [_ Hall]. destruct (Hall x (or_introl eq_refl)) as [Hn Ha].
    destruct (IH (after_add_strategy w x) Hs Hreg')
      as (w' & E & S' & A' & St' & N' & I' & T' & U' & C').
    exists w'. split.
    { simpl. unfold bind. rewrite (add_strategy_accepted w x Hs Hn Ha).
      exact E. }
    split. { rewrite S'. cbn. now rewrite <- app_assoc. }
    split. { exact A'. }
    split. { exact St'. }
    split. { rewrite N'. cbn. lia. }
    split. { intros r. rewrite I'. apply Hunit. }
    split. { intros r. rewrite T'. apply Hunit. }
    split.
    { intros r Hr. rewrite U' by (intros H; apply Hr; now right).
      apply Hunit. intros ->. apply Hr. now left. }
    intros [| i] u Hu; cbn in Hu.
    + injection Hu as <-. rewrite (U' x Hx). cbn.
      now rewrite upd_same, Nat.add_0_r.
    + rewrite (C' i u Hu). cbn. f_equal. lia.
Qed.

Lemma for_each_add_actor (l : list Ref) :
  forall w,
    state (self w) <> RUNNING ->
    registrable w (_actors (self w)) l ->
    exists w',
      for_each l add_actor w = (w', Return tt)
      /\ _actors (self w') = _actors (self w) ++ l
      /\ _strategies (self w') = _strategies (self w)
      /\ state (self w') = state (self w)
      /\ next_ref w' = next_ref w + List.length l
      /\ (forall r, Component.id (units w' r) = Component.id (units w r))
      /\ (forall r, Component.state (units w' r)
                    = Component.state (units w r))
      /\ (forall r, ~ In r l -> units w' r = units w r)
      /\ (forall i u, nth_error l i = Some u ->
                      Component.clock (units w' u) = Some (next_ref w + i)).
Proof.
  induction l as [| x l IH]; intros w Hs Hreg.
  - exists w. cbn. rewrite app_nil_r, Nat.add_0_r. repeat split.
    intros [| i] u; discriminate.
  - pose proof (after_add_actor_unit w x) as Hunit.
    destruct (registrable_tail w (after_add_actor w x) _ x l
                (fun r => proj1 (Hunit r))
                (fun r => proj1 (proj2 (Hunit r))) Hreg) as [Hreg' Hx].
    destruct Hreg as [_ Hall]. destruct (Hall x (or_introl eq_refl)) as [Hn Ha].
    destruct (IH (after_add_actor w x) Hs Hreg')
      as (w' & E & S' & A' & St' & N' & I' & T' & U' & C').
    exists w'. split.
    { simpl. unfold bind. rewrite (add_actor_accepted w x Hs Hn Ha).
      exact E. }
    split. { rewrite S'. cbn. now rewrite <- app_assoc. }
    split. { exact A'. }
    split. { exact St'. }
    split. { rewrite N'. cbn. lia. }
    split. { intros r. rewrite I'. apply Hunit. }
    split. { intros r. rewrite T'. apply Hunit. }
    split.
    { intros r Hr. rewrite U' by (intros H; apply Hr; now right).
      apply Hunit. intros ->. apply Hr. now left. }
    intros [| i] u Hu; cbn in Hu.
    + injection Hu as <-. rewrite (U' x Hx). cbn.
      now rewrite upd_same, Nat.add_0_r.
    + rewrite (C' i u Hu). cbn. f_equal. lia.
Qed.

(** X4: on a Trader that is not RUNNING, [add_strategies] / [add_actors]
    of a non-empty list of units that can be registered one after the other
    returns normally and appends the whole list, in order, to its registry;
    the other registry is untouched, a unit that is not in the list is left
    exactly as it was, and the unit at position [i] of the list holds the
    [i]-th clock the call constructed. *)
Theorem bulk_add_registers_all (w : World) (l : list Ref) :
  state (self w) <> RUNNING ->
  l <> [] ->
  (registrable w (_strategies (self w)) l ->
   exists w',
     add_strategies (Some l) w = (w', Return tt)
     /\ _strategies (self w') = _strategies (self w) ++ l
     /\ _actors (self w') = _actors (self w)
     /\ (forall r, ~ In r l -> units w' r = units w r)
     /\ (forall i u, nth_error l i = Some u ->
                     Component.clock (units w' u) = Some (next_ref w + i)))
  /\
  (registrable w (_actors (self w)) l ->
   exists w',
     add_actors (Some l) w = (w', Return tt)
     /\ _actors (self w') = _actors (self w) ++ l
     /\ _strategies (self w') = _strategies (self w)
     /\ (forall r, ~ In r l -> units w' r = units w r)
     /\ (forall i u, nth_error l i = Some u ->
                     Component.clock (units w' u) = Some (next_ref w + i))).
Proof.
  intros Hs Hl. split; intros Hreg.
  - destruct (for_each_add_strategy l w Hs Hreg)
      as (w' & E & S' & A' & _ & _ & _ & _ & U' & C').
    exists w'. split.
    { unfold add_strategies, bind. destruct l; [contradiction | exact E]. }
    repeat split; auto.
  - destruct (for_each_add_actor l w Hs Hreg)
      as (w' & E & S' & A' & _ & _ & _ & _ & U' & C').
    exists w'. split.
    { unfold add_actors, bind. destruct l; [contradiction | exact E]. }
    repeat split; auto.
Qed.

Lemma for_each_app {A : Type} (body : A -> M unit) (l1 l2 : list A)
    (w : World) :
  for_each (l1 ++ l2) body w =
    match for_each l1 body w with
    | (w1, Return _) => for_each l2 body w1
    | (w1, Raise e) => (w1, Raise e)
    end.
Proof.
  revert w. induction l1 as [| x l1 IH]; intros w; [reflexivity|].
  simpl. unfold bind. destruct (body x w) as [w1 [[] | e]];
    [apply IH | reflexivity].
Qed.

(** X5: bulk registration does not roll back.  On a Trader that is not
    RUNNING, when the units before [x] in the list can be registered and
    [x] is then refused (its identity is registered by then, or its state
    is RUNNING or DISPOSED), [add_strategies] / [add_actors] raise, the
    units before [x] stay registered, and no unit from [x] on is touched
    unless it was one of those. *)
Theorem bulk_add_keeps_earlier (w : World) (l1 l2 : list Ref) (x : Ref) :
  state (self w) <> RUNNING ->
  (registrable w (_strategies (self w)) l1 ->
   registered w x (_strategies (self w) ++ l1) \/ ~ admissible w x ->
   exists w' e,
     add_strategies (Some (l1 ++ x :: l2)) w = (w', Raise e)
     /\ _strategies (self w') = _strategies (self w) ++ l1
     /\ (forall r, ~ In r l1 -> units w' r = units w r))
  /\
  (registrable w (_actors (self w)) l1 ->
   registered w x (_actors (self w) ++ l1) \/ ~ admissible w x ->
   exists w' e,
     add_actors (Some (l1 ++ x :: l2)) w = (w', Raise e)
     /\ _actors (self w') = _actors (self w) ++ l1
     /\ (forall r, ~ In r l1 -> units w' r = units w r)).
Proof.
  intros Hs. split; intros Hreg Hx.
  - destruct (for_each_add_strategy l1 w Hs Hreg)
      as (w1 & E & S1 & _ & _ & _ & I1 & T1 & U1 & _).
    destruct (add_strategy_rejected w1 x) as (e & Ex).
    { rewrite S1, (registered_ext w w1) by exact I1.
      rewrite (admissible_ext w w1) by exact T1. exact Hx. }
    exists w1, e. split; [|now split].
    unfold add_strategies, bind.
    replace (Condition_not_empty (Some (l1 ++ x :: l2)) "strategies" w)
      with (w, @Return unit tt) by (destruct l1; reflexivity).
    cbn [elements]. rewrite for_each_app, E. simpl. unfold bind.
    now rewrite Ex.
  - destruct (for_each_add_actor l1 w Hs Hreg)
      as (w1 & E & S1 & _ & _ & _ & I1 & T1 & U1 & _).
    destruct (add_actor_rejected w1 x) as (e & Ex).
    { rewrite S1, (registered_ext w w1) by exact I1.
      rewrite (admissible_ext w w1) by exact T1. exact Hx. }
    exists w1, e. split; [|now split].
    unfold add_actors, bind.
    replace (Condition_not_empty (Some (l1 ++ x :: l2)) "actors" w)
      with (w, @Return unit tt) by (destruct l1; reflexivity).
    cbn [elements]. rewrite for_each_app, E. simpl. unfold bind.
    now rewrite Ex.
Qed.

(** *** Cascades of one verb *)

Section Cascade.

Variable body : Ref -> M unit.
Variable v : Verb.

Hypothesis body_step :
  forall w r,
    Component.hook_raises (units w r) v = false ->
    exists w' mid,
      body r w = (w', Return tt)
      /\ trace w' = trace w ++ mid
      /\ calls_in mid = [EvCall r v]
      /\ Forall from_unit mid
      /\ (forall r' v', Component.hook_raises (units w' r') v'
                        = Component.hook_raises (units w r') v').

Lemma cascade_loop (l : list Ref) :
  forall w,
    (forall r, In r l -> Component.hook_raises (units w r) v = false) ->
    exists w' mid,
      for_each l body w = (w', Return tt)
      /\ trace w' = trace w ++ mid
      /\ calls_in mid = map (fun r => EvCall r v) l
      /\ Forall from_unit mid
      /\ (forall r' v', Component.hook_raises (units w' r') v'
                        = Component.hook_raises (units w r') v').
Proof.
  induction l as [| r l IH]; intros w Hh.
  - exists w, []. simpl. rewrite app_nil_r. repeat split; auto.
  - destruct (body_step w r) as (w1 & m1 & E1 & T1 & C1 & F1 & K1).
    { apply Hh. now left. }
    destruct (IH w1) as (w2 & m2 & E2 & T2 & C2 & F2 & K2).
    { intros r' Hin. rewrite K1. apply Hh. now right. }
    exists w2, (m1 ++ m2). split.
    { simpl. unfold bind. rewrite E1. exact E2. }
    split; [now rewrite T2, T1, app_assoc|].
    split; [now rewrite calls_in_app, C1, C2|].
    split; [apply Forall_app; now split|].
    intros r' v'. now rewrite K2, K1.
Qed.

End Cascade.

Ltac verb_step Hhook :=
  unfold bind, emit, modify, gets, log, emit, modify, set_state, run_hook,
    raise, ret;
  cbn;
  match goal with
  | |- context [Component.state (units ?w ?r)] =>
      destruct (Component.state (units w r)) eqn:?
  end; cbn; rewrite ?upd_same; cbn; rewrite ?Hhook;
  (eexists; eexists; split; [reflexivity|]; cbn;
   split; [now rewrite <- ?app_assoc|];
   split; [reflexivity|]; split; [repeat constructor|];
   intros r' v';
   match goal with
   | |- context [upd _ ?r _ r'] =>
       destruct (Nat.eqb_spec r' r) as [-> | Hne];
       [now rewrite !upd_same | now rewrite !upd_other by exact Hne]
   | _ => reflexivity
   end).

Lemma Component_start_step (w : World) (r : Ref) :
  Component.hook_raises (units w r) START = false ->
  exists w' mid,
    Component_start r w = (w', Return tt)
    /\ trace w' = trace w ++ mid
    /\ calls_in mid = [EvCall r START]
    /\ Forall from_unit mid
    /\ (forall r' v', Component.hook_raises (units w' r') v'
                      = Component.hook_raises (units w r') v').
Proof. intros Hhook. unfold Component_start. verb_step Hhook. Qed.

Lemma Component_dispose_step (w : World) (r : Ref) :
  Component.hook_raises (units w r) DISPOSE = false ->
  exists w' mid,
    Component_dispose r w = (w', Return tt)
    /\ trace w' = trace w ++ mid
    /\ calls_in mid = [EvCall r DISPOSE]
    /\ Forall from_unit mid
    /\ (forall r' v', Component.hook_raises (units w' r') v'
                      = Component.hook_raises (units w r') v').
Proof. intros Hhook. unfold Component_dispose. verb_step Hhook. Qed.

(** *** Disposal *)

Definition disposed (w : World) (r : Ref) : Prop :=
  Component.state (units w r) = DISPOSED.

Lemma Component_dispose_states (w w' : World) (r : Ref) (o : Outcome unit) :
  Component_dispose r w = (w', o) ->
  (o = Return tt -> disposed w' r)
  /\ (forall r', disposed w r' -> disposed w' r')
  /\ (forall r', r' <> r -> units w' r' = units w r')
  /\ (disposed w r -> o = Return tt)
  /\ (~ disposed w r -> Component.hook_raises (units w r) DISPOSE = true ->
      o <> Return tt).
Proof.
  unfold disposed, Component_dispose, bind, emit, modify, gets, set_state,
    run_hook, raise, ret.
  cbn. destruct (Component.state (units w r)) eqn:Hst; cbn;
    destruct (Component.hook_raises (units w r) DISPOSE) eqn:Hh; cbn;
    intros [= <- <-]; cbn;
    repeat split; try congruence; try discriminate; try (intros; exact Hst);
    try (now rewrite upd_same);
    try (intros r' Hne; now rewrite upd_other by exact Hne);
    try (intros r' Hd; destruct (Nat.eqb_spec r' r) as [-> | Hne];
         [now rewrite upd_same | now rewrite upd_other by exact Hne]).
Qed.

Lemma dispose_loop_states (l : list Ref) :
  forall w w',
    for_each l Component_dispose w = (w', Return tt) ->
    (forall r, In r l -> disposed w' r)
    /\ (forall r, disposed w r -> disposed w' r)
    /\ (forall r, ~ In r l -> units w' r = units w r).
Proof.
  induction l as [| x l IH]; intros w w' E.
  - injection E as <-. repeat split; auto. intros r [].
  - simpl in E. unfold bind in E.
    destruct (Component_dispose x w) as [w1 [[] | e]] eqn:E1;
      [|discriminate].
    destruct (Component_dispose_states _ _ _ _ E1) as (D1 & K1 & U1 & _).
    destruct (IH _ _ E) as (D2 & K2 & U2).
    split; [|split].
    + intros r [<- | Hin]; [apply K2, D1; reflexivity | now apply D2].
    + intros r Hr. now apply K2, K1.
    + intros r Hr. rewrite U2 by (intros H; apply Hr; now right).
      apply U1. intros ->. apply Hr. now left.
Qed.

Lemma dispose_loop_fails (l : list Ref) :
  forall w,
    (exists r, In r l /\ ~ disposed w r
               /\ Component.hook_raises (units w r) DISPOSE = true) ->
    exists w' e, for_each l Component_dispose w = (w', Raise e).
Proof.
  induction l as [| x l IH]; intros w (r & Hin & Hnd & Hh); [contradiction|].
  simpl. unfold bind.
  destruct (Component_dispose x w) as [w1 [[] | e]] eqn:E1; [|eauto].
  destruct (Component_dispose_states _ _ _ _ E1) as (_ & _ & U1 & _ & F1).
  destruct Hin as [<- | Hin].
  - exfalso. now apply (F1 Hnd Hh).
  - destruct (Nat.eq_dec r x) as [-> | Hne].
    + exfalso. now apply (F1 Hnd Hh).
    + apply IH. exists r. unfold disposed. rewrite (U1 r Hne). auto.
Qed.

(** X6: on a Trader that is not RUNNING, when no dispose hook of the
    registered units raises, [clear_strategies] / [clear_actors] returns
    normally having called [dispose()] on each unit of its registry in
    registration order; every one of them ends DISPOSED, the registry ends
    empty, and the other registry is as it was. *)
Theorem clear_disposes_and_empties (w : World) :
  state (self w) <> RUNNING ->
  ((forall r, In r (_strategies (self w)) ->
              Component.hook_raises (units w r) DISPOSE = false) ->
   exists w' mid,
     clear_strategies w = (w', Return tt)
     /\ _strategies (self w') = []
     /\ _actors (self w') = _actors (self w)
     /\ trace w' = trace w ++ mid
     /\ calls_in mid
        = map (fun r => EvCall r DISPOSE) (_strategies (self w))
     /\ (forall r, In r (_strategies (self w)) -> disposed w' r))
  /\
  ((forall r, In r (_actors (self w)) ->
              Component.hook_raises (units w r) DISPOSE = false) ->
   exists w' mid,
     clear_actors w = (w', Return tt)
     /\ _actors (self w') = []
     /\ _strategies (self w') = _strategies (self w)
     /\ trace w' = trace w ++ mid
     /\ calls_in mid = map (fun r => EvCall r DISPOSE) (_actors (self w))
     /\ (forall r, In r (_actors (self w)) -> disposed w' r)).
Proof.
  intros Hs. apply ComponentState_eqb_neq in Hs. split; intros Hh.
  - destruct (cascade_loop Component_dispose DISPOSE Component_dispose_step
                (_strategies (self w)) w Hh) as (w1 & mid & E & T & C & _).
    destruct (dispose_loop_states _ _ _ E) as (D & _).
    pose proof (Kept_for_each Component_dispose (_strategies (self w))
                  Kept_Component_dispose w) as Hk.
    rewrite E in Hk. destruct Hk as (Hself & _).
    eexists. exists mid. split.
    { unfold clear_strategies, bind, self_is_running_c, gets. rewrite Hs.
      cbn. rewrite E. reflexivity. }
    cbn in *. rewrite Hself. repeat split; auto.
  - destruct (cascade_loop Component_dispose DISPOSE Component_dispose_step
                (_actors (self w)) w Hh) as (w1 & mid & E & T & C & _).
    destruct (dispose_loop_states _ _ _ E) as (D & _).
    pose proof (Kept_for_each Component_dispose (_actors (self w))
                  Kept_Component_dispose w) as Hk.
    rewrite E in Hk. destruct Hk as (Hself & _).
    eexists. exists mid. split.
    { unfold clear_actors, bind, self_is_running_c, gets. rewrite Hs.
      cbn. rewrite E. reflexivity. }
    cbn in *. rewrite Hself. repeat split; auto.
Qed.

(** X7: a clear that fails clears nothing.  On a Trader that is not
    RUNNING, when the dispose hook of some registered unit that is not yet
    DISPOSED raises, [clear_strategies] / [clear_actors] raises and the
    Trader keeps both registries whole, the units disposed before the
    failure included. *)
Theorem failed_clear_keeps_registry (w : World) :
  state (self w) <> RUNNING ->
  ((exists r, In r (_strategies (self w)) /\ ~ disposed w r
              /\ Component.hook_raises (units w r) DISPOSE = true) ->
   exists w' e, clear_strategies w = (w', Raise e) /\ self w' = self w)
  /\
  ((exists r, In r (_actors (self w)) /\ ~ disposed w r
              /\ Component.hook_raises (units w r) DISPOSE = true) ->
   exists w' e, clear_actors w = (w', Raise e) /\ self w' = self w).
Proof.
  intros Hs. apply ComponentState_eqb_neq in Hs. split; intros Hbad.
  - destruct (dispose_loop_fails _ w Hbad) as (w1 & e & E).
    pose proof (Kept_for_each Component_dispose (_strategies (self w))
                  Kept_Component_dispose w) as Hk.
    rewrite E in Hk. destruct Hk as (Hself & _).
    exists w1, e. split; [|exact Hself].
    unfold clear_strategies, bind, self_is_running_c, gets. rewrite Hs.
    cbn. now rewrite E.
  - destruct (dispose_loop_fails _ w Hbad) as (w1 & e & E).
    pose proof (Kept_for_each Component_dispose (_actors (self w))
                  Kept_Component_dispose w) as Hk.
    rewrite E in Hk. destruct Hk as (Hself & _).
    exists w1, e. split; [|exact Hself].
    unfold clear_actors, bind, self_is_running_c, gets. rewrite Hs.
    cbn. now rewrite E.
Qed.

(** X8: when no dispose hook of a registered unit raises, the [_dispose]
    hook returns normally having called [dispose()] on every actor and then
    on every strategy, in registration order; every one of them ends
    DISPOSED, and, unlike a clear, both registries keep their units. *)
Theorem dispose_hook_cascade (w : World) :
  (forall r, In r (_actors (self w) ++ _strategies (self w)) ->
             Component.hook_raises (units w r) DISPOSE = false) ->
  exists w' mid,
    _dispose w = (w', Return tt)
    /\ trace w' = trace w ++ mid
    /\ calls_in mid = map (fun r => EvCall r DISPOSE)
                          (_actors (self w) ++ _strategies (self w))
    /\ Forall from_unit mid
    /\ (forall r, In r (_actors (self w) ++ _strategies (self w)) ->
                  disposed w' r)
    /\ self w' = self w.
Proof.
  intros Hh.
  destruct (cascade_loop Component_dispose DISPOSE Component_dispose_step
              (_actors (self w)) w) as (w1 & m1 & E1 & T1 & C1 & F1 & K1).
  { intros r Hin. apply Hh. apply in_or_app. now left. }
  pose proof (Kept_for_each Component_dispose (_actors (self w))
                Kept_Component_dispose w) as Hk1.
  rewrite E1 in Hk1. destruct Hk1 as (S1 & _).
  destruct (cascade_loop Component_dispose DISPOSE Component_dispose_step
              (_strategies (self w)) w1) as (w2 & m2 & E2 & T2 & C2 & F2 & K2).
  { intros r Hin. rewrite K1. apply Hh. apply in_or_app. now right. }
  pose proof (Kept_for_each Component_dispose (_strategies (self w))
                Kept_Component_dispose w1) as Hk2.
  rewrite E2 in Hk2. destruct Hk2 as (S2 & _).
  destruct (dispose_loop_states _ _ _ E1) as (D1 & _).
  destruct (dispose_loop_states _ _ _ E2) as (D2 & P2 & _).
  cbn in S1, S2.
  exists w2, (m1 ++ m2). split.
  { unfold _dispose, bind, gets. rewrite E1, S1, E2. reflexivity. }
  split. { now rewrite T2, T1, app_assoc. }
  split. { now rewrite calls_in_app, C1, C2, map_app. }
  split. { apply Forall_app. now split. }
  split.
  { intros r Hin. apply in_app_or in Hin. destruct Hin as [Hin | Hin].
    - apply P2. now apply D1.
    - now apply D2. }
  congruence.
Qed.

(** X9: with at least one strategy registered, and when no start hook of
    a registered unit raises, the [_start] hook returns normally having
    called [start()] on every actor and then on every strategy, in
    registration order; the Trader itself logs nothing and its registries
    are as they were. *)
Theorem start_hook_cascade (w : World) :
  _strategies (self w) <> [] ->
  (forall r, In r (_actors (self w) ++ _strategies (self w)) ->
             Component.hook_raises (units w r) START = false) ->
  exists w' mid,
    _start w = (w', Return tt)
    /\ trace w' = trace w ++ mid
    /\ calls_in mid = map (fun r => EvCall r START)
                          (_actors (self w) ++ _strategies (self w))
    /\ Forall from_unit mid
    /\ self w' = self w.
Proof.
  intros Hne Hh.
  destruct (cascade_loop Component_start START Component_start_step
              (_actors (self w)) w) as (w1 & m1 & E1 & T1 & C1 & F1 & K1).
  { intros r Hin. apply Hh. apply in_or_app. now left. }
  pose proof (Kept_for_each Component_start (_actors (self w))
                Kept_Component_start w) as Hk1.
  rewrite E1 in Hk1. destruct Hk1 as (S1 & _).
  destruct (cascade_loop Component_start START Component_start_step
              (_strategies (self w)) w1) as (w2 & m2 & E2 & T2 & C2 & F2 & K2).
  { intros r Hin. rewrite K1. apply Hh. apply in_or_app. now right. }
  pose proof (Kept_for_each Component_start (_strategies (self w))
                Kept_Component_start w1) as Hk2.
  rewrite E2 in Hk2. destruct Hk2 as (S2 & _).
  cbn in S1, S2.
  exists w2, (m1 ++ m2). split.
  { unfold _start, bind, gets.
    destruct (_strategies (self w)) as [| s0 l0] eqn:Hl; [contradiction|].
    rewrite E1, S1, Hl, E2. reflexivity. }
  split. { now rewrite T2, T1, app_assoc. }
  split. { now rewrite calls_in_app, C1, C2, map_app. }
  split. { apply Forall_app. now split. }
  congruence.
Qed.

(** *** Stopping twice *)

Definition already_stopped (r : Ref) : Event :=
  EvLog ByTrader WARNING (Fmt "" r " already stopped.").

Lemma stop_events_app (l1 l2 : list Ref) :
  forall run,
    stop_events run (l1 ++ l2)
    = stop_events run l1
      ++ stop_events (fun r => run r && negb (existsb (Nat.eqb r) l1)) l2.
Proof.
  induction l1 as [| a l1 IH]; intros run.
  - simpl. apply stop_events_ext. intros r. now rewrite andb_true_r.
  - simpl. rewrite <- app_assoc. f_equal. rewrite IH. f_equal.
    apply stop_events_ext. intros r. rewrite negb_orb. now rewrite andb_assoc.
Qed.

Lemma stop_events_idle (l : list Ref) :
  forall run,
    (forall r, In r l -> run r = false) ->
    stop_events run l = map already_stopped l.
Proof.
  induction l as [| a l IH]; intros run H; [reflexivity|].
  simpl. rewrite (H a) by now left. cbn. f_equal.
  apply IH. intros r Hin. rewrite (H r) by now right. reflexivity.
Qed.

Lemma count_calls_idle (r : Ref) (v : Verb) (l : list Ref) :
  count_calls r v (map already_stopped l) = 0.
Proof. induction l as [| a l IH]; [reflexivity | exact IH]. Qed.

Lemma stop_run (w : World) :
  (forall r, In r (_actors (self w) ++ _strategies (self w)) ->
             running w r = true ->
             Component.hook_raises (units w r) STOP = false) ->
  exists w',
    _stop w = (w', Return tt)
    /\ self w' = self w
    /\ trace w' = trace w
                  ++ stop_events (running w)
                       (_actors (self w) ++ _strategies (self w))
    /\ (forall r, running w' r
                  = running w r
                    && negb (existsb (Nat.eqb r)
                               (_actors (self w) ++ _strategies (self w)))).
Proof.
  intros Hh.
  destruct (stop_loop (_actors (self w)) w) as (w1 & E1 & S1 & T1 & R1 & K1).
  { intros r Hin. apply Hh. apply in_or_app. now left. }
  destruct (stop_loop (_strategies (self w)) w1)
    as (w2 & E2 & S2 & T2 & R2 & K2).
  { intros r Hin Hrun. rewrite K1. rewrite R1 in Hrun.
    apply andb_true_iff in Hrun.
    apply Hh; [apply in_or_app; now right | apply Hrun]. }
  exists w2. split. { rewrite _stop_unfold, E1, S1. exact E2. }
  split. { congruence. }
  split.
  { rewrite T2, T1, <- app_assoc, stop_events_app. do 2 f_equal.
    apply stop_events_ext. exact R1. }
  intros r. rewrite R2, R1, existsb_app, negb_orb. now rewrite andb_assoc.
Qed.

(** X10: stopping twice is safe.  When the stop hook of no running child
    raises, a first [_stop] returns normally, and a second [_stop] right
    after it returns normally too, calls no lifecycle verb on any unit, and
    only logs one warning of the Trader per registered child, in
    registration order. *)
Theorem stop_hook_twice (w : World) :
  (forall r, In r (_actors (self w) ++ _strategies (self w)) ->
             running w r = true ->
             Component.hook_raises (units w r) STOP = false) ->
  exists w1 w2,
    _stop w = (w1, Return tt)
    /\ _stop w1 = (w2, Return tt)
    /\ trace w2 = trace w1
                  ++ map already_stopped
                       (_actors (self w) ++ _strategies (self w))
    /\ (forall r v, count_calls r v (trace w2) = count_calls r v (trace w1))
    /\ self w2 = self w.
Proof.
  intros Hh. destruct (stop_run w Hh) as (w1 & E1 & S1 & T1 & R1).
  assert (Hidle : forall r,
             In r (_actors (self w1) ++ _strategies (self w1)) ->
             running w1 r = false).
  { intros r Hin. rewrite S1 in Hin. rewrite R1.
    assert (Hex : existsb (Nat.eqb r)
                    (_actors (self w) ++ _strategies (self w)) = true).
    { apply existsb_exists. exists r. split; [exact Hin | apply Nat.eqb_refl]. }
    rewrite Hex. simpl. now rewrite andb_false_r. }
  destruct (stop_run w1) as (w2 & E2 & S2 & T2 & _).
  { intros r Hin Hrun. rewrite (Hidle r Hin) in Hrun. discriminate. }
  rewrite (stop_events_idle _ _ Hidle), S1 in T2.
  exists w1, w2. repeat split; try assumption.
  - intros r v. now rewrite T2, count_calls_app, count_calls_idle, Nat.add_0_r.
  - congruence.
Qed.

(** *** Registering again *)

(** X12: a unit cannot be registered twice in one registry.  Right after
    a registration the Trader accepted, registering the same unit again in
    the same registry raises [KeyError] and leaves the store as the first
    call left it. *)
Theorem add_twice_raises (w : World) (u : Ref) :
  state (self w) <> RUNNING ->
  admissible w u ->
  (~ registered w u (_strategies (self w)) ->
   exists w1,
     add_strategy u w = (w1, Return tt)
     /\ add_strategy u w1 = (w1, Raise (KeyError "strategy" "_strategies")))
  /\
  (~ registered w u (_actors (self w)) ->
   exists w1,
     add_actor u w = (w1, Return tt)
     /\ add_actor u w1 = (w1, Raise (KeyError "actor" "_actors"))).
Proof.
  intros Hs Ha. split; intros Hn.
  - exists (after_add_strategy w u).
    split; [now apply add_strategy_accepted|].
    assert (Hc : contains (after_add_strategy w u) u
                   (_strategies (self (after_add_strategy w u))) = true).
    { apply contains_registered, registered_In. cbn.
      apply in_or_app. right. now left. }
    unfold add_strategy, bind, gets, Condition_not_in. now rewrite Hc.
  - exists (after_add_actor w u).
    split; [now apply add_actor_accepted|].
    assert (Hc : contains (after_add_actor w u) u
                   (_actors (self (after_add_actor w u))) = true).
    { apply contains_registered, registered_In. cbn.
      apply in_or_app. right. now left. }
    unfold add_actor, bind, gets, Condition_not_in. now rewrite Hc.
Qed.

(** X14: a registration shows up in the listing.  After a registration
    the Trader accepted, [strategy_ids] / [actor_ids] lists the identifier
    of the new unit together with exactly the identifiers listed before,
    and the listing of the other registry is the same as before. *)
Theorem ids_after_add (w : World) (u : Ref) :
  state (self w) <> RUNNING ->
  admissible w u ->
  (~ registered w u (_strategies (self w)) ->
   exists w1 ids ids1,
     add_strategy u w = (w1, Return tt)
     /\ strategy_ids w = (w, Return ids)
     /\ strategy_ids w1 = (w1, Return ids1)
     /\ Permutation ids1 (Component.id (units w u) :: ids)
     /\ snd (actor_ids w1) = snd (actor_ids w))
  /\
  (~ registered w u (_actors (self w)) ->
   exists w1 ids ids1,
     add_actor u w = (w1, Return tt)
     /\ actor_ids w = (w, Return ids)
     /\ actor_ids w1 = (w1, Return ids1)
     /\ Permutation ids1 (Component.id (units w u) :: ids)
     /\ snd (strategy_ids w1) = snd (strategy_ids w)).
Proof.
  intros Hs Ha. split; intros Hn.
  - pose proof (after_add_strategy_unit w u) as Hunit.
    exists (after_add_strategy w u). eexists. eexists.
    split; [now apply add_strategy_accepted|].
    split; [reflexivity|]. split; [reflexivity|]. split.
    + rewrite !sorted_Permutation.
      change (Permutation
                (ids_of (after_add_strategy w u) (_strategies (self w) ++ [u]))
                (Component.id (units w u) :: ids_of w (_strategies (self w)))).
      rewrite (ids_of_ext w) by (intros r; apply Hunit).
      unfold ids_of. rewrite map_app. cbn.
      symmetry. apply Permutation_cons_append.
    + unfold actor_ids, gets. cbn [snd]. f_equal. f_equal.
      change (ids_of (after_add_strategy w u) (_actors (self w))
              = ids_of w (_actors (self w))).
      apply ids_of_ext. intros r. apply Hunit.
  - pose proof (after_add_actor_unit w u) as Hunit.
    exists (after_add_actor w u). eexists. eexists.
    split; [now apply add_actor_accepted|].
    split; [reflexivity|]. split; [reflexivity|]. split.
    + rewrite !sorted_Permutation.
      change (Permutation
                (ids_of (after_add_actor w u) (_actors (self w) ++ [u]))
                (Component.id (units w u) :: ids_of w (_actors (self w)))).
      rewrite (ids_of_ext w) by (intros r; apply Hunit).
      unfold ids_of. rewrite map_app. cbn.
      symmetry. apply Permutation_cons_append.
    + unfold strategy_ids, gets. cbn [snd]. f_equal. f_equal.
      change (ids_of (after_add_actor w u) (_strategies (self w))
              = ids_of w (_strategies (self w))).
      apply ids_of_ext. intros r. apply Hunit.
Qed.

(** *** State listings *)

(** The dict comprehension of [states_of], continued from the dict [d]. *)
Definition states_from (w : World) (l : list Ref) (d : Dict.dict string)
    : Dict.dict string :=
  fold_left
    (fun d u => Dict.set (Component.id (units w u))
                  (state_string_c (Component.state (units w u))) d)
    l d.

Lemma states_fold (w : World) (l : list Ref) :
  forall d : Dict.dict string,
    NoDup (ids_of w l) ->
    (forall r, In r l -> ~ In (Component.id (units w r)) (Dict.keys d)) ->
    Dict.keys (states_from w l d) = Dict.keys d ++ ids_of w l
    /\ (forall k, ~ In k (ids_of w l) ->
                  Dict.get k (states_from w l d) = Dict.get k d)
    /\ (forall r, In r l ->
          Dict.get (Component.id (units w r)) (states_from w l d)
          = Some (state_string_c (Component.state (units w r)))).
Proof.
  induction l as [| x l IH]; intros d Hnd Hfresh.
  - cbn. rewrite app_nil_r. repeat split. intros r [].
  - cbn in Hnd. apply NoDup_cons_iff in Hnd. destruct Hnd as [Hx Hnd].
    set (d1 := Dict.set (Component.id (units w x))
                 (state_string_c (Component.state (units w x))) d).
    change (states_from w (x :: l) d) with (states_from w l d1).
    change (ids_of w (x :: l))
      with (Component.id (units w x) :: ids_of w l).
    assert (Hk1 : Dict.keys d1 = Dict.keys d ++ [Component.id (units w x)]).
    { apply Dict_keys_set_new. apply Hfresh. now left. }
    destruct (IH d1 Hnd) as (Hkeys & Hframe & Hget).
    { intros r Hin. rewrite Hk1. intros H. apply in_app_or in H.
      destruct H as [H | [H | []]].
      - now apply (Hfresh r (or_intror Hin)).
      - apply Hx. rewrite H.
        now apply (in_map (fun r => Component.id (units w r))). }
    split; [|split].
    + rewrite Hkeys, Hk1, <- app_assoc. reflexivity.
    + intros k Hk. rewrite Hframe by (intros H; apply Hk; now right).
      apply Dict_get_set_other. intros ->. apply Hk. now left.
    + intros r [<- | Hin]; [|now apply Hget].
      rewrite (Hframe _ Hx). apply Dict_get_set_same.
Qed.

(** X16: in a registry whose identifiers are pairwise distinct,
    [strategy_states] / [actor_states] returns a dict with one key per
    registered unit, in registration order, that maps the identifier of
    each unit to the name of its lifecycle state; the store is left as it
    was. *)
Theorem states_list_each_unit (w : World) :
  (NoDup (ids_of w (_strategies (self w))) ->
   exists d,
     strategy_states w = (w, Return d)
     /\ Dict.keys d = ids_of w (_strategies (self w))
     /\ forall r, In r (_strategies (self w)) ->
          Dict.get (Component.id (units w r)) d
          = Some (state_string_c (Component.state (units w r))))
  /\
  (NoDup (ids_of w (_actors (self w))) ->
   exists d,
     actor_states w = (w, Return d)
     /\ Dict.keys d = ids_of w (_actors (self w))
     /\ forall r, In r (_actors (self w)) ->
          Dict.get (Component.id (units w r)) d
          = Some (state_string_c (Component.state (units w r)))).
Proof.
  split; intros Hnd.
  - destruct (states_fold w (_strategies (self w)) [] Hnd) as (K & _ & G).
    { intros r _ []. }
    eexists. split; [reflexivity|]. split; [exact K | exact G].
  - destruct (states_fold w (_actors (self w)) [] Hnd) as (K & _ & G).
    { intros r _ []. }
    eexists. split; [reflexivity|]. split; [exact K | exact G].
Qed.

(** *** A stop hook that raises *)

Lemma _stop_as_one_loop (w : World) :
  _stop w
  = for_each (_actors (self w) ++ _strategies (self w)) stop_body w.
Proof.
  rewrite _stop_unfold, for_each_app.
  assert (Hk : Kept (for_each (_actors (self w)) stop_body)).
  { apply Kept_for_each. intros x. unfold stop_body, is_running_c.
    kept_steps; apply Kept_Component_stop. }
  specialize (Hk w).
  destruct (for_each (_actors (self w)) stop_body w) as [w1 [[] | e]];
    [|reflexivity].
  destruct Hk as (Hs & _). cbn in Hs. now rewrite Hs.
Qed.

(** X11: a stop hook that raises ends the cascade.  When the children
    before [r] in cascade order (actors, then strategies) stop without
    raising and [r], met for the first time, is running with a stop hook
    that raises, [_stop] raises the error of that hook right after calling
    [stop()] on [r]: [r] is left STOPPING, no later event is recorded, and a
    child that comes only after [r] is as running as it was. *)
Theorem stop_hook_failure_aborts (w : World) (pre post : list Ref) (r : Ref) :
  _actors (self w) ++ _strategies (self w) = pre ++ r :: post ->
  (forall q, In q pre -> running w q = true ->
             Component.hook_raises (units w q) STOP = false) ->
  ~ In r pre ->
  running w r = true ->
  Component.hook_raises (units w r) STOP = true ->
  exists w',
    _stop w = (w', Raise (HookError r STOP))
    /\ trace w' = trace w ++ stop_events (running w) pre
                  ++ [EvCall r STOP; EvHook r STOP]
    /\ Component.state (units w' r) = STOPPING
    /\ (forall q, ~ In q pre -> q <> r -> running w' q = running w q)
    /\ self w' = self w.
Proof.
  intros Hsplit Hpre Hnin Hrun Hraise.
  destruct (stop_loop pre w Hpre) as (w1 & E1 & S1 & T1 & R1 & K1).
  assert (Hrun1 : running w1 r = true).
  { rewrite R1, Hrun. simpl.
    destruct (existsb (Nat.eqb r) pre) eqn:Hex; [|reflexivity].
    apply existsb_exists in Hex. destruct Hex as (x & Hin & Hx).
    apply Nat.eqb_eq in Hx. subst x. contradiction. }
  assert (Hst : Component.state (units w1 r) = RUNNING).
  { now apply ComponentState_eqb_eq. }
  eexists. split.
  { rewrite _stop_as_one_loop, Hsplit, for_each_app, E1. simpl.
    unfold bind at 1. unfold stop_body at 1, bind at 1, is_running_c, gets.
    fold (running w1 r). rewrite Hrun1.
    unfold Component_stop, bind, emit, modify, gets, set_state, run_hook,
      raise, ret.
    cbn. rewrite Hst. cbn. rewrite upd_same. cbn. rewrite K1, Hraise.
    reflexivity. }
  cbn. rewrite upd_same. cbn. split.
  { rewrite T1, <- !app_assoc. reflexivity. }
  split; [reflexivity|]. split; [|exact S1].
  intros q Hq Hne. unfold running. cbn. rewrite upd_other by exact Hne.
  fold (running w1 q). rewrite R1.
  destruct (existsb (Nat.eqb q) pre) eqn:Hex; [|now rewrite andb_true_r].
  apply existsb_exists in Hex. destruct Hex as (x & Hin & Hx).
  apply Nat.eqb_eq in Hx. subst x. contradiction.
Qed.

(** *** Which error a refused registration raises *)

(** X13: the guards of a registration fire in the order the code lists
    them.  A unit whose identity is registered raises [KeyError], whatever
    its state; otherwise a RUNNING unit raises [ValueError] with the RUNNING
    message and a DISPOSED unit [ValueError] with the DISPOSED message; the
    store is left as it was in each case. *)
Theorem add_rejection_reason (w : World) (u : Ref) :
  (registered w u (_strategies (self w)) ->
   add_strategy u w = (w, Raise (KeyError "strategy" "_strategies")))
  /\ (~ registered w u (_strategies (self w)) ->
      Component.state (units w u) = RUNNING ->
      add_strategy u w = (w, Raise (ValueError "strategy.state was RUNNING")))
  /\ (~ registered w u (_strategies (self w)) ->
      Component.state (units w u) = DISPOSED ->
      add_strategy u w = (w, Raise (ValueError "strategy.state was DISPOSED")))
  /\ (registered w u (_actors (self w)) ->
      add_actor u w = (w, Raise (KeyError "actor" "_actors")))
  /\ (~ registered w u (_actors (self w)) ->
      Component.state (units w u) = RUNNING ->
      add_actor u w = (w, Raise (ValueError "actor.state was RUNNING")))
  /\ (~ registered w u (_actors (self w)) ->
      Component.state (units w u) = DISPOSED ->
      add_actor u w = (w, Raise (ValueError "actor.state was DISPOSED"))).
Proof.
  unfold add_strategy, add_actor, bind, gets, Condition_not_in, is_running_c,
    is_disposed_c, Condition_true, raise, ret.
  repeat match goal with |- _ /\ _ => split end;
    intros H;
    try (apply contains_registered in H; rewrite H; reflexivity);
    apply contains_not_registered in H; rewrite H; cbn;
    intros Hst; repeat (rewrite Hst; cbn); reflexivity.
Qed.

(** *** The listing does not depend on registration order *)

Lemma sorted_list_unique (l1 l2 : list ComponentId) :
  StronglySorted id_le l1 -> StronglySorted id_le l2 ->
  Permutation l1 l2 -> l1 = l2.
Proof.
  revert l2. induction l1 as [| a l1 IH]; intros l2 H1 H2 Hp.
  - apply Permutation_nil in Hp. now subst.
  - destruct l2 as [| b l2].
    { apply Permutation_sym, Permutation_nil in Hp. discriminate. }
    apply StronglySorted_inv in H1. destruct H1 as [H1 Ha].
    apply StronglySorted_inv in H2. destruct H2 as [H2 Hb].
    assert (Hab : a = b).
    { assert (Hin_b : In b (a :: l1)).
      { apply (Permutation_in b (Permutation_sym Hp)). now left. }
      assert (Hin_a : In a (b :: l2)).
      { apply (Permutation_in a Hp). now left. }
      destruct Hin_b as [E | Hin_b]; [exact E|].
      destruct Hin_a as [E | Hin_a]; [now symmetry|].
      rewrite Forall_forall in Ha, Hb.
      apply String.leb_antisym; [apply Ha | apply Hb]; assumption. }
    subst b. f_equal. apply IH; try assumption.
    now apply Permutation_cons_inv in Hp.
Qed.

(** X15: the listings do not depend on the order of registration: two
    stores whose strategy (actor) registries carry the same identifiers,
    in whatever order, get the same list from [strategy_ids]
    ([actor_ids]). *)
Theorem ids_listing_ignores_order (w w' : World) :
  (Permutation (ids_of w (_strategies (self w)))
               (ids_of w' (_strategies (self w'))) ->
   snd (strategy_ids w) = snd (strategy_ids w'))
  /\
  (Permutation (ids_of w (_actors (self w)))
               (ids_of w' (_actors (self w'))) ->
   snd (actor_ids w) = snd (actor_ids w')).
Proof.
  split; intros Hp; cbn; f_equal;
    (apply sorted_list_unique;
     [ apply sorted_StronglySorted | apply sorted_StronglySorted
     | rewrite !sorted_Permutation; exact Hp ]).
Qed.

End TraderOperations.

(* ================================================================== *)
(** * Properties of the Binance request builder and fill parser        *)
(* ================================================================== *)

Section BinanceBuilder.

Import Binance.

Variable Price : Type.
Variable Price_str : Price -> string.
Variable TimeInForceParser_to_str : TimeInForce.t -> string.

(** Destructs an order down to the members its request depends on. *)
Ltac by_cases order :=
  destruct order as [cid ty sd tif post hid px];
  destruct ty, sd, tif, post, hid; cbn in *.

(** X17: [build] raises exactly for [None], a GTD order, a DAY order, and
    a hidden LIMIT order that is not post-only; every other order is given
    a request, a hidden post-only LIMIT order and a hidden MARKET order
    included. *)
Theorem build_raises_exactly (order : option (Order Price)) :
  (exists e, build Price Price_str TimeInForceParser_to_str order = Raise e)
  <-> match order with
      | None => True
      | Some order =>
          time_in_force Price order = TimeInForce.GTD
          \/ time_in_force Price order = TimeInForce.DAY
          \/ (type Price order = OrderType.LIMIT
              /\ is_post_only Price order = false
              /\ is_hidden Price order = true)
      end.
Proof.
  destruct order as [order |];
    [| split; [exact (fun _ => I) | intros _; eexists; reflexivity]].
  by_cases order; split;
    try (intros [e H]; discriminate H);
    try (intros [H | [H | (H1 & H2 & H3)]]; discriminate);
    try (intros _; eexists; reflexivity);
    try (intros _; auto).
Qed.

Ltac in_keys :=
  cbn;
  repeat match goal with
         | |- _ /\ _ => split
         | |- _ <-> _ => split
         | |- NoDup _ => constructor
         | |- ~ _ => intro
         | |- _ -> _ => intro
         | H : _ \/ _ |- _ => destruct H
         | H : _ /\ _ |- _ => destruct H
         | H : False |- _ => destruct H
         | H : exists _, _ |- _ => destruct H
         | H : In _ _ |- _ => cbn in H
         | H : _ = _ |- _ => discriminate H
         end;
  try reflexivity; try tauto; eauto 6.

(** X18: every request [build] returns carries the client order id under
    "newClientOrderId" and 10000 under "recvWindow", and no key twice;
    "timeInForce" is present exactly for a LIMIT order that is not
    post-only, with the parsed time in force; "stopPrice" is present
    exactly for a STOP_MARKET order, with the price as a string; "type" is
    present exactly for MARKET, LIMIT, and STOP_MARKET orders that buy or
    sell. *)
Theorem build_request_keys (order : Order Price) (request : Dict.dict Value) :
  build Price Price_str TimeInForceParser_to_str (Some order)
  = Return request ->
  Dict.get "newClientOrderId" request = Some (Str (cl_ord_id Price order))
  /\ Dict.get "recvWindow" request = Some (Int 10000)
  /\ NoDup (Dict.keys request)
  /\ (In "timeInForce" (Dict.keys request)
      <-> type Price order = OrderType.LIMIT
          /\ is_post_only Price order = false)
  /\ (type Price order = OrderType.LIMIT ->
      is_post_only Price order = false ->
      Dict.get "timeInForce" request
      = Some (Str (TimeInForceParser_to_str (time_in_force Price order))))
  /\ (In "stopPrice" (Dict.keys request)
      <-> type Price order = OrderType.STOP_MARKET)
  /\ (type Price order = OrderType.STOP_MARKET ->
      Dict.get "stopPrice" request
      = Some (Str (Price_str (price Price order))))
  /\ (In "type" (Dict.keys request)
      <-> type Price order = OrderType.MARKET
          \/ type Price order = OrderType.LIMIT
          \/ (type Price order = OrderType.STOP_MARKET
              /\ (side Price order = OrderSide.BUY
                  \/ side Price order = OrderSide.SELL))).
Proof.
  by_cases order; intros H; try discriminate H; injection H as <-; in_keys.
Qed.

(** X19: the "type" of a request tells the order apart: "MARKET" for a
    MARKET order, "LIMIT_MAKER" for a post-only LIMIT order, "LIMIT" for any
    other LIMIT order, "STOP_LOSS" for a STOP_MARKET buy and "TAKE_PROFIT"
    for a STOP_MARKET sell; a request has no "type" exactly when the order
    type is none of the three the builder names, or the order is a
    STOP_MARKET whose side is neither BUY nor SELL. *)
Theorem build_type_decodes (order : Order Price) (request : Dict.dict Value) :
  build Price Price_str TimeInForceParser_to_str (Some order)
  = Return request ->
  (Dict.get "type" request = Some (Str "MARKET")
   <-> type Price order = OrderType.MARKET)
  /\ (Dict.get "type" request = Some (Str "LIMIT_MAKER")
      <-> type Price order = OrderType.LIMIT
          /\ is_post_only Price order = true)
  /\ (Dict.get "type" request = Some (Str "LIMIT")
      <-> type Price order = OrderType.LIMIT
          /\ is_post_only Price order = false)
  /\ (Dict.get "type" request = Some (Str "STOP_LOSS")
      <-> type Price order = OrderType.STOP_MARKET
          /\ side Price order = OrderSide.BUY)
  /\ (Dict.get "type" request = Some (Str "TAKE_PROFIT")
      <-> type Price order = OrderType.STOP_MARKET
          /\ side Price order = OrderSide.SELL)
  /\ (Dict.get "type" request = None
      <-> (exists n, type Price order = OrderType.Other n)
          \/ (type Price order = OrderType.STOP_MARKET
              /\ exists n, side Price order = OrderSide.Other n)).
Proof.
  by_cases order; intros H; try discriminate H; injection H as <-; in_keys.
Qed.

End BinanceBuilder.

Section BinanceParser.

Import Binance.

Variable valid_string : string -> bool.
Variable Raw : Type.
Variable Fee : Type.

(** The outcome of [parse] once [info] and [fee] are known not to be
    [None]. *)
Lemma parse_given (symbol : string) (info : Dict.dict Raw) (fee : Fee) :
  ((exists d,
      parse valid_string Raw Fee symbol (Some info) (Some fee) = Return d)
   <-> valid_string symbol = true
       /\ Forall (fun k => In k (Dict.keys info)) ["l"; "z"; "L"; "T"])
  /\ (forall d,
        parse valid_string Raw Fee symbol (Some info) (Some fee) = Return d ->
        Dict.keys d
        = ["symbol"; "fee"; "fill_qty"; "cum_qty"; "average"; "timestamp"]
        /\ Dict.get "symbol" d = Some (PSymbol Raw Fee symbol)
        /\ Dict.get "fee" d = Some (PFee Raw Fee fee)
        /\ Dict.get "fill_qty" d
           = option_map (PRaw Raw Fee) (Dict.get "l" info)
        /\ Dict.get "cum_qty" d
           = option_map (PRaw Raw Fee) (Dict.get "z" info)
        /\ Dict.get "average" d
           = option_map (PRaw Raw Fee) (Dict.get "L" info)
        /\ Dict.get "timestamp" d
           = option_map (PRaw Raw Fee) (Dict.get "T" info))
  /\ (valid_string symbol = false ->
      parse valid_string Raw Fee symbol (Some info) (Some fee)
      = Raise (ConditionFailed "symbol"))
  /\ (forall e,
        valid_string symbol = true ->
        parse valid_string Raw Fee symbol (Some info) (Some fee) = Raise e ->
        exists k, In k ["l"; "z"; "L"; "T"]
                  /\ e = KeyError k /\ ~ In k (Dict.keys info)).
Proof.
  assert (Hk : forall k v, Dict.get k info = Some v -> In k (Dict.keys info)).
  { intros k v E. destruct (in_dec string_dec k (Dict.keys info)) as [H | H];
      [exact H|]. apply Dict_get_None in H. congruence. }
  unfold parse, item.
  destruct (valid_string symbol); cbn.
  2:{ split; [split|split; [|split]].
      - intros [d H]; discriminate H.
      - intros [H _]; discriminate H.
      - intros d H; discriminate H.
      - reflexivity.
      - intros e H; discriminate H. }
  destruct (Dict.get "l" info) as [vl |] eqn:El.
  2:{ apply Dict_get_None in El. split; [split|split; [|split]].
      - intros [d H]; discriminate H.
      - intros [_ H]. inversion H; subst. contradiction.
      - intros d H; discriminate H.
      - intros H; discriminate H.
      - intros e _ [= <-]. exists "l". cbn.
        split; [auto 10 | split; [reflexivity | assumption]]. }
  destruct (Dict.get "z" info) as [vz |] eqn:Ez.
  2:{ apply Dict_get_None in Ez. split; [split|split; [|split]].
      - intros [d H]; discriminate H.
      - intros [_ H]. inversion H as [| ? ? _ H1]; subst.
        inversion H1; subst. contradiction.
      - intros d H; discriminate H.
      - intros H; discriminate H.
      - intros e _ [= <-]. exists "z". cbn.
        split; [auto 10 | split; [reflexivity | assumption]]. }
  destruct (Dict.get "L" info) as [vL |] eqn:EL.
  2:{ apply Dict_get_None in EL. split; [split|split; [|split]].
      - intros [d H]; discriminate H.
      - intros [_ H]. inversion H as [| ? ? _ H1]; subst.
        inversion H1 as [| ? ? _ H2]; subst. inversion H2; subst.
        contradiction.
      - intros d H; discriminate H.
      - intros H; discriminate H.
      - intros e _ [= <-]. exists "L". cbn.
        split; [auto 10 | split; [reflexivity | assumption]]. }
  destruct (Dict.get "T" info) as [vT |] eqn:ET.
  2:{ apply Dict_get_None in ET. split; [split|split; [|split]].
      - intros [d H]; discriminate H.
      - intros [_ H]. inversion H as [| ? ? _ H1]; subst.
        inversion H1 as [| ? ? _ H2]; subst.
        inversion H2 as [| ? ? _ H3]; subst. inversion H3; subst.
        contradiction.
      - intros d H; discriminate H.
      - intros H; discriminate H.
      - intros e _ [= <-]. exists "T". cbn.
        split; [auto 10 | split; [reflexivity | assumption]]. }
  split; [split|split; [|split]].
  - intros _. split; [reflexivity|]. repeat constructor; eauto.
  - intros _. eexists. reflexivity.
  - intros d [= <-]. cbn. repeat split.
  - intros H; discriminate H.
  - intros e _ H; discriminate H.
Qed.

(** X20: for an [info] and a [fee] that are not [None], [parse] returns a
    dict exactly when the symbol is a valid string and [info] has the keys
    "l", "z", "L" and "T"; the dict then has the six keys "symbol", "fee",
    "fill_qty", "cum_qty", "average", "timestamp", in this order, holding
    the symbol, the fee and the values of "l", "z", "L" and "T".  The checks
    fire in the order of the code: an invalid symbol is refused whatever
    the other arguments are, then an [info] that is [None], then a [fee]
    that is [None], also when [info] lacks a key; any other failure is the
    [KeyError] of a key [info] lacks. *)
Theorem parse_outcome (symbol : string) (info : Dict.dict Raw) (fee : Fee) :
  ((exists d,
      parse valid_string Raw Fee symbol (Some info) (Some fee) = Return d)
   <-> valid_string symbol = true
       /\ Forall (fun k => In k (Dict.keys info)) ["l"; "z"; "L"; "T"])
  /\ (forall d,
        parse valid_string Raw Fee symbol (Some info) (Some fee) = Return d ->
        Dict.keys d
        = ["symbol"; "fee"; "fill_qty"; "cum_qty"; "average"; "timestamp"]
        /\ Dict.get "symbol" d = Some (PSymbol Raw Fee symbol)
        /\ Dict.get "fee" d = Some (PFee Raw Fee fee)
        /\ Dict.get "fill_qty" d
           = option_map (PRaw Raw Fee) (Dict.get "l" info)
        /\ Dict.get "cum_qty" d
           = option_map (PRaw Raw Fee) (Dict.get "z" info)
        /\ Dict.get "average" d
           = option_map (PRaw Raw Fee) (Dict.get "L" info)
        /\ Dict.get "timestamp" d
           = option_map (PRaw Raw Fee) (Dict.get "T" info))
  /\ (valid_string symbol = false ->
      forall info' fee',
        parse valid_string Raw Fee symbol info' fee'
        = Raise (ConditionFailed "symbol"))
  /\ (valid_string symbol = true ->
      (forall fee',
         parse valid_string Raw Fee symbol None fee'
         = Raise (ConditionFailed "info"))
      /\ parse valid_string Raw Fee symbol (Some info) None
         = Raise (ConditionFailed "fee"))
  /\ (forall e,
        valid_string symbol = true ->
        parse valid_string Raw Fee symbol (Some info) (Some fee) = Raise e ->
        exists k, In k ["l"; "z"; "L"; "T"]
                  /\ e = KeyError k /\ ~ In k (Dict.keys info)).
Proof.
  destruct (parse_given symbol info fee) as (HA & HB & _ & HE).
  split; [exact HA | split; [exact HB | split; [| split; [| exact HE]]]].
  - intros H info' fee'. unfold parse. now rewrite H.
  - intros H. unfold parse. rewrite H. cbn. split; [intros fee' |]; reflexivity.
Qed.

End BinanceParser.

(* ================================================================== *)
(** * Worked examples                                                  *)
(* ================================================================== *)

Import Trading.

(** A session with string-valued reports and list-valued collaborator
    state. *)
#[local] Instance sample_ext : Collaborators := {|
  Order := string;
  PositionRecord := string;
  Account := string;
  DataFrame := list string;
  empty_DataFrame := [];
  ReportProvider_generate_orders_report := fun orders => orders;
  ReportProvider_generate_order_fills_report := fun orders => orders;
  ReportProvider_generate_positions_report := fun positions => positions;
  ReportProvider_generate_account_report := fun account => [account];
  PortfolioState := list string;
  Portfolio_reset := fun _ => [];
  AnalyzerState := list string;
  PortfolioAnalyzer_reset := fun _ => []
|}.

Definition sample_unit (name : ComponentId) (st : ComponentState)
    (raises : Verb -> bool) : Component.Component :=
  Component.mk name st None None None None None None raises.

Definition never : Verb -> bool := fun _ => false.

(** Two actors (10, 11), two registered strategies (20, 21), one strategy
    not yet registered (22) and one whose stop hook raises (23). *)
Definition sample_units : Ref -> Component.Component :=
  fun r =>
    match r with
    | 10 => sample_unit "Actor-A" RUNNING never
    | 11 => sample_unit "Actor-B" STOPPED never
    | 20 => sample_unit "EMACross-002" RUNNING never
    | 21 => sample_unit "EMACross-001" STOPPED never
    | 22 => sample_unit "Momentum-001" INITIALIZED never
    | 23 => sample_unit "Faulty-001" RUNNING
              (fun v => match v with STOP => true | _ => false end)
    | _ => sample_unit "" PRE_INITIALIZED never
    end.

Definition sample_trader (st : ComponentState) (actors strategies : list Ref) : Trader :=
  mkTrader "TRADER-001" st 1 (RootLogger "TRADER-001") 2 3 4 5 6 7
           actors strategies 8.

Definition sample_world (st : ComponentState) (actors strategies : list Ref) : World :=
  mkWorld (sample_trader st actors strategies) sample_units
          (fun _ => TestClock) 100
          (mkCache ["O-1"; "O-2"] ["P-1"] [("SIM", "SIM-001")])
          ["exposure"] ["returns"] [].

Example _stop_example :
  trace (fst (_stop (sample_world RUNNING [10; 11] [20; 21]))) =
    [EvCall 10 STOP; EvHook 10 STOP;
     EvLog ByTrader WARNING (Fmt "" 11 " already stopped.");
     EvCall 20 STOP; EvHook 20 STOP;
     EvLog ByTrader WARNING (Fmt "" 21 " already stopped.")].
Proof. reflexivity. Qed.

(** A stop hook that raises ends the cascade: the exception reaches the
    caller and the strategy behind the faulty actor is still running. *)
Example _stop_hook_failure :
  snd (_stop (sample_world RUNNING [23] [20])) = Raise (HookError 23 STOP)
  /\ running (fst (_stop (sample_world RUNNING [23] [20]))) 20 = true
  /\ trace (fst (_stop (sample_world RUNNING [23] [20]))) =
       [EvCall 23 STOP; EvHook 23 STOP].
Proof. repeat split. Qed.

(** [start()] on the running actor is a logged no-op; the initialized
    strategy starts. *)
Example _start_example :
  let w' := fst (_start (sample_world INITIALIZED [10] [22])) in
  trace w' =
    [EvCall 10 START; EvLog (ByUnit 10) INFO (Refused START RUNNING);
     EvCall 22 START; EvHook 22 START]
  /\ Component.state (units w' 22) = RUNNING.
Proof. split; reflexivity. Qed.

Example add_strategy_example :
  let w' := fst (add_strategy 22 (sample_world INITIALIZED [10; 11] [20; 21])) in
  _strategies (self w') = [20; 21; 22]
  /\ Component.clock (units w' 22) = Some 100
  /\ Component.portfolio (units w' 22) = Some 4
  /\ trace w' = [EvRegisterOmsType 7 22;
                 EvLog ByTrader INFO (Fmt "Registered TradingStrategy " 22 ".")].
Proof. repeat split. Qed.

Example strategy_ids_example :
  snd (strategy_ids (sample_world INITIALIZED [10; 11] [20; 21; 22])) =
    Return ["EMACross-001"; "EMACross-002"; "Momentum-001"].
Proof. reflexivity. Qed.

(** C9: [strategy_ids] and [actor_ids] hand back the store they were given
    and return the identifiers of the registered units in ascending order,
    each earlier one below each later one, as a rearrangement of the
    registry's identifiers; the listing is sorted and so need not follow the
    order of registration. *)
Theorem ids_sorted_ascending :
  (forall (ext : Collaborators) (w : World),
     (exists ids,
        strategy_ids w = (w, Return ids)
        /\ StronglySorted id_le ids
        /\ Permutation ids
             (map (fun r => Component.id (units w r)) (_strategies (self w))))
     /\
     (exists ids,
        actor_ids w = (w, Return ids)
        /\ StronglySorted id_le ids
        /\ Permutation ids
             (map (fun r => Component.id (units w r)) (_actors (self w)))))
  /\
  (exists (ext : Collaborators) (w : World) (ids : list ComponentId),
     strategy_ids w = (w, Return ids)
     /\ ids <> map (fun r => Component.id (units w r)) (_strategies (self w))).
Proof.
  split.
  - intros ext w. split; eexists; (split; [reflexivity|]); split.
    + apply sorted_StronglySorted.
    + apply sorted_Permutation.
    + apply sorted_StronglySorted.
    + apply sorted_Permutation.
  - exists sample_ext, (sample_world INITIALIZED [10; 11] [20; 21]).
    eexists. split; [reflexivity|]. cbn. discriminate.
Qed.

(** ** Instances of the conditional theorems *)

Lemma add_strategy_to_running_trader_witness :
  add_strategy 22 (sample_world RUNNING [10; 11] [20; 21]) =
    (with_trace
       [EvLog ByTrader ERROR (Lit "Cannot add a strategy to a running trader.")]
       (sample_world RUNNING [10; 11] [20; 21]),
     Return tt).
Proof.
  apply (add_strategy_to_running_trader
           (sample_world RUNNING [10; 11] [20; 21]) 22).
  - reflexivity.
  - apply contains_not_registered. reflexivity.
  - discriminate.
  - discriminate.
Defined.

Lemma add_rejects_registered_running_disposed_witness :
  (exists e, add_strategy 20 (sample_world STOPPED [10; 11] [20; 21])
             = (sample_world STOPPED [10; 11] [20; 21], Raise e))
  /\ (exists e, add_actor 23 (sample_world STOPPED [10; 11] [20; 21])
                = (sample_world STOPPED [10; 11] [20; 21], Raise e)).
Proof.
  split.
  - apply (add_rejects_registered_running_disposed
             (sample_world STOPPED [10; 11] [20; 21]) 20).
    left. apply registered_In. simpl. auto.
  - apply (add_rejects_registered_running_disposed
             (sample_world STOPPED [10; 11] [20; 21]) 23).
    right. left. reflexivity.
Defined.

Lemma sample_clocks_allocated (st : ComponentState) (actors strategies : list Ref) :
  clocks_allocated (sample_world st actors strategies).
Proof.
  split; [simpl; lia|].
  intros r c. simpl. unfold sample_units.
  do 24 (destruct r as [| r]; [discriminate|]). discriminate.
Qed.

Lemma add_wires_and_appends_witness :
  (exists w' clock,
     add_strategy 22 (sample_world INITIALIZED [10; 11] [20; 21]) = (w', Return tt)
     /\ wired (sample_world INITIALIZED [10; 11] [20; 21]) w' 22 clock
     /\ Component.portfolio (units w' 22) = Some 4
     /\ _strategies (self w') = [20; 21] ++ [22]
     /\ _actors (self w') = [10; 11])
  /\
  (exists w' clock,
     add_actor 22 (sample_world INITIALIZED [10; 11] [20; 21]) = (w', Return tt)
     /\ wired (sample_world INITIALIZED [10; 11] [20; 21]) w' 22 clock
     /\ Component.portfolio (units w' 22) = None
     /\ _actors (self w') = [10; 11] ++ [22]
     /\ _strategies (self w') = [20; 21]).
Proof.
  destruct (add_wires_and_appends
              (sample_world INITIALIZED [10; 11] [20; 21]) 22) as [Hs Ha].
  - apply sample_clocks_allocated.
  - discriminate.
  - discriminate.
  - discriminate.
  - split.
    + apply Hs. apply contains_not_registered. reflexivity.
    + apply Ha. apply contains_not_registered. reflexivity.
Defined.

Lemma start_hook_without_strategies_witness :
  _start (sample_world INITIALIZED [10; 11] []) =
    (with_trace [EvLog ByTrader ERROR (Lit "No strategies loaded.")]
                (sample_world INITIALIZED [10; 11] []),
     Return tt).
Proof.
  apply (start_hook_without_strategies (sample_world INITIALIZED [10; 11] [])).
  reflexivity.
Defined.

Lemma sample_hooks_never (v : Verb) (r : Ref) :
  In r ([10; 11] ++ [20; 21]) ->
  Component.hook_raises (sample_units r) v = false.
Proof.
  simpl. intros [<- | [<- | [<- | [<- | []]]]]; reflexivity.
Qed.

Lemma stop_hook_cascade_witness :
  exists w' added,
    _stop (sample_world RUNNING [10; 11] [20; 21]) = (w', Return tt)
    /\ trace w' = added
    /\ visited added = [10; 11; 20; 21]
    /\ count_calls 10 STOP added = 1
    /\ count_calls 11 STOP added = 0.
Proof.
  destruct (stop_hook_cascade (sample_world RUNNING [10; 11] [20; 21]))
    as (w' & added & E & T & V & C1 & C0 & _).
  - intros r Hin _. now apply sample_hooks_never.
  - exists w', added. repeat split; try assumption.
    + apply C1; [simpl; auto | reflexivity].
    + apply C0. reflexivity.
Defined.

(** The case the hypothesis of the stop cascade leaves out: actor 23 is
    running and its stop hook raises, so [_stop] raises right there and
    strategy 20, registered and running, receives no [stop()] call at all
    and is still running afterwards. *)
Lemma stop_hook_cascade_counterexample :
  exists w',
    _stop (sample_world RUNNING [23] [20]) = (w', Raise (HookError 23 STOP))
    /\ In 20 (_actors (self (sample_world RUNNING [23] [20]))
              ++ _strategies (self (sample_world RUNNING [23] [20])))
    /\ running (sample_world RUNNING [23] [20]) 20 = true
    /\ trace w' = [EvCall 23 STOP; EvHook 23 STOP]
    /\ count_calls 20 STOP (trace w') = 0
    /\ running w' 20 = true.
Proof.
  eexists. split; [reflexivity|]. cbn. repeat split. auto.
Qed.

Lemma reports_are_read_only_witness :
  generate_account_report "BINANCE" (sample_world RUNNING [10; 11] [20; 21])
  = (sample_world RUNNING [10; 11] [20; 21], Return []).
Proof.
  apply (reports_are_read_only (sample_world RUNNING [10; 11] [20; 21]) "BINANCE").
  simpl. intros a [H | []]. discriminate.
Defined.

(** Two further units whose reset hook raises: 26 is running, so
    [reset()] is refused before it reaches the hook; 27 is stopped, so
    [reset()] runs the hook. *)
Definition reset_units : Ref -> Component.Component :=
  fun r =>
    match r with
    | 26 => sample_unit "Faulty-002" RUNNING
              (fun v => match v with RESET => true | _ => false end)
    | 27 => sample_unit "Faulty-003" STOPPED
              (fun v => match v with RESET => true | _ => false end)
    | _ => sample_units r
    end.

Definition reset_world (actors strategies : list Ref) : World :=
  mkWorld (sample_trader STOPPED actors strategies) reset_units
          (fun _ => TestClock) 100
          (mkCache ["O-1"; "O-2"] ["P-1"] [("SIM", "SIM-001")])
          ["exposure"] ["returns"] [].

(** The running actor 26 has a reset hook that raises, but [reset()] on it
    is refused and logged, so the cascade goes through. *)
Lemma reset_hook_cascade_witness :
  exists w' mid,
    _reset (reset_world [11; 26] [20; 21]) = (w', Return tt)
    /\ trace w' = mid ++ [EvPortfolioReset 4; EvAnalyzerReset 8]
    /\ calls_in mid = [EvCall 11 RESET; EvCall 26 RESET;
                       EvCall 20 RESET; EvCall 21 RESET]
    /\ portfolio_state w' = []
    /\ analyzer_state w' = [].
Proof.
  destruct (reset_hook_cascade (reset_world [11; 26] [20; 21]))
    as (w' & mid & E & T & C & _ & P & A & _).
  - simpl. intros r [<- | [<- | [<- | [<- | []]]]] Hst;
      solve [reflexivity | discriminate Hst].
  - exists w', mid. repeat split; assumption.
Defined.

(** The case the hypothesis of the reset cascade leaves out: strategy 27 is
    stopped and its reset hook raises, so [_reset] raises right there;
    strategy 21 behind it receives no [reset()] call, and neither the
    Portfolio nor the analyzer is reset (a reset would leave them empty). *)
Lemma reset_hook_cascade_counterexample :
  exists w',
    _reset (reset_world [11] [27; 21]) = (w', Raise (HookError 27 RESET))
    /\ trace w' = [EvCall 11 RESET; EvHook 11 RESET;
                   EvCall 27 RESET; EvHook 27 RESET]
    /\ count_calls 21 RESET (trace w') = 0
    /\ portfolio_state w' = ["exposure"]
    /\ Portfolio_reset (portfolio_state (reset_world [11] [27; 21])) = []
    /\ analyzer_state w' = ["returns"]
    /\ PortfolioAnalyzer_reset (analyzer_state (reset_world [11] [27; 21]))
       = [].
Proof.
  eexists. split; [reflexivity|]. cbn. repeat split.
Qed.

(** ** The ledger on the flip scenario *)

Definition sample_return (self : Model.Position) (avg_px_open avg_px_close : Q) : Q :=
  (Model._calculate_points self avg_px_open avg_px_close / avg_px_open)%Q.

Definition opening_fill : Model.Fill.OrderFilled :=
  Model.Fill.mk "EUR/USD.SIM" Model.BUY 100%Q 10%Q (Model.mkMoney 2%Q "USD")
                "E-1" "O-1" 1000%Z.

(** LONG 100 @ 10, opened by [opening_fill]. *)
Definition long_100_at_10 : Model.Position :=
  Model.mkPosition [opening_fill] ["E-1"] 100%Q 0%Q [("USD", 2%Q)]
    "TRADER-001" "EMACross-001" "EUR/USD.SIM" "P-1" "SIM-001" "O-1"
    Model.BUY Model.LONG 100%Q 100%Q 100%Q 5 0 1%Q false "USD" (Some "EUR")
    "USD" 1000%Z 1000%Z 1000%Z 0%Z 0%Z 10%Q None 0%Q 0%Q
    (Model.mkMoney 0%Q "USD").

Definition flip_fill : Model.Fill.OrderFilled :=
  Model.Fill.mk "EUR/USD.SIM" Model.SELL 150%Q 12%Q (Model.mkMoney 3%Q "USD")
                "E-2" "O-2" 2000%Z.

Example flip_scenario :
  let p := fst (Model.apply sample_return long_100_at_10 flip_fill) in
  Model.side p = Model.SHORT
  /\ (Model.quantity p == 50)%Q
  /\ (Model.avg_px_open p == 12)%Q
  /\ Model.avg_px_close p = None
  /\ Model.ts_closed p = 0%Z
  /\ (Model.amount (Model.realized_pnl p) == 200)%Q
  /\ Model._execution_ids p = ["E-1"; "E-2"].
Proof. repeat split; vm_compute; reflexivity. Qed.

Lemma apply_rejects_without_mutation_witness :
  Model.apply sample_return long_100_at_10 opening_fill
  = (long_100_at_10, Model.Raise Model.DataIntegrityError)
  /\ Model.apply sample_return
       (fst (Model.apply sample_return long_100_at_10 flip_fill)) flip_fill
     = (fst (Model.apply sample_return long_100_at_10 flip_fill),
        Model.Raise Model.DataIntegrityError).
Proof.
  split.
  - destruct (apply_rejects_without_mutation sample_return long_100_at_10
                opening_fill) as [Hguard _].
    apply Hguard. left. simpl. auto.
  - destruct (apply_rejects_without_mutation sample_return long_100_at_10
                flip_fill) as [_ Hagain].
    apply Hagain; reflexivity.
Defined.

Lemma calculate_pnl_formula_witness :
  Model.currency (Model.calculate_pnl long_100_at_10 10 12 100) = "USD"
  /\ (Model.amount (Model.calculate_pnl long_100_at_10 10 12 100)
      == (12 - 10) * 100 * 1)%Q.
Proof.
  apply (calculate_pnl_formula long_100_at_10 10%Q 12%Q 100%Q); reflexivity.
Defined.

(* ================================================================== *)
(** * Worked examples for the other operations                         *)
(* ================================================================== *)

Lemma sample_unit_plain (r : Ref) :
  r <> 23 ->
  Component.clock (sample_units r) = None
  /\ forall v, Component.hook_raises (sample_units r) v = false.
Proof.
  intros Hne. unfold sample_units.
  do 23 (destruct r as [| r]; [split; reflexivity|]).
  destruct r as [| r]; [contradiction | split; reflexivity].
Qed.

Lemma sample_clock_None (r : Ref) : Component.clock (sample_units r) = None.
Proof.
  unfold sample_units. do 24 (destruct r as [| r]; [reflexivity|]).
  reflexivity.
Qed.

Lemma sample_registries_unique (st : ComponentState) :
  registries_unique (sample_world st [10; 11] [20; 21]).
Proof.
  split; cbn; repeat constructor; cbn; intuition discriminate.
Qed.

Lemma sample_clock_isolated (st : ComponentState) (actors strategies : list Ref) :
  clock_isolated (sample_world st actors strategies).
Proof.
  intros r c _ Hr. cbn in Hr. rewrite sample_clock_None in Hr. discriminate.
Qed.

Lemma sample_registrable (registry : list Ref) :
  ~ In 22 registry -> ~ In 24 registry ->
  (forall r, In r registry -> r = 10 \/ r = 11 \/ r = 20 \/ r = 21) ->
  registrable (sample_world INITIALIZED [10; 11] [20; 21]) registry [22; 24].
Proof.
  intros H22 H24 Hreg. split.
  - cbn. repeat constructor; cbn; intuition discriminate.
  - intros u [<- | [<- | []]]; (split; [| split; discriminate]);
      intros (r & Hin & Hr); destruct (Hreg r Hin) as [-> | [-> | [-> | ->]]];
      discriminate Hr.
Qed.

(** The operations used below: a registration, the same once more, a bulk
    registration that fails half way, a stop and a clear. *)
Definition sample_ops : list Op :=
  [OpAddStrategy 22; OpAddStrategy 22; OpAddActors (Some [24; 10; 25]);
   OpStop; OpClearActors].

Example sample_ops_run :
  let w := run_ops sample_ops (sample_world INITIALIZED [10; 11] [20; 21]) in
  _strategies (self w) = [20; 21; 22]
  /\ _actors (self w) = []
  /\ Component.clock (units w 22) = Some 100
  /\ Component.clock (units w 24) = Some 101
  /\ Component.clock (units w 25) = None
  /\ Component.state (units w 24) = DISPOSED
  /\ Component.state (units w 20) = STOPPED.
Proof. repeat split. Qed.

Lemma registry_ids_stay_unique_witness :
  registries_unique
    (run_ops sample_ops (sample_world INITIALIZED [10; 11] [20; 21])).
Proof.
  apply (registry_ids_stay_unique sample_ops).
  apply sample_registries_unique.
Defined.

Lemma clocks_stay_isolated_witness :
  clocks_allocated
    (run_ops sample_ops (sample_world INITIALIZED [10; 11] [20; 21]))
  /\ clock_isolated
       (run_ops sample_ops (sample_world INITIALIZED [10; 11] [20; 21])).
Proof.
  apply (clocks_stay_isolated sample_ops). split.
  - apply sample_clocks_allocated.
  - apply sample_clock_isolated.
Defined.

Lemma running_trader_only_logs_witness :
  exists added,
    fst (add_strategies (Some [22; 24]) (sample_world RUNNING [10; 11] [20; 21]))
    = with_trace added (sample_world RUNNING [10; 11] [20; 21])
    /\ Forall trader_error added.
Proof.
  apply (running_trader_only_logs (OpAddStrategies (Some [22; 24]))
           (sample_world RUNNING [10; 11] [20; 21])).
  - reflexivity.
  - exact I.
Defined.

Lemma bulk_add_registers_all_witness :
  exists w',
    add_strategies (Some [22; 24]) (sample_world INITIALIZED [10; 11] [20; 21])
    = (w', Return tt)
    /\ _strategies (self w') = [20; 21] ++ [22; 24]
    /\ Component.clock (units w' 22) = Some 100
    /\ Component.clock (units w' 24) = Some 101.
Proof.
  destruct (bulk_add_registers_all
              (sample_world INITIALIZED [10; 11] [20; 21]) [22; 24])
    as [Hs _].
  - discriminate.
  - discriminate.
  - destruct Hs as (w' & E & S' & _ & _ & C').
    + apply sample_registrable;
        [ cbn; intuition discriminate | cbn; intuition discriminate
        | cbn; intros r [<- | [<- | []]]; auto ].
    + exists w'. repeat split; try assumption.
      * apply (C' 0 22). reflexivity.
      * apply (C' 1 24). reflexivity.
Defined.

Lemma bulk_add_keeps_earlier_witness :
  exists w' e,
    add_strategies (Some ([22; 24] ++ 22 :: [21]))
      (sample_world INITIALIZED [10; 11] [20; 21]) = (w', Raise e)
    /\ _strategies (self w') = [20; 21] ++ [22; 24].
Proof.
  destruct (bulk_add_keeps_earlier
              (sample_world INITIALIZED [10; 11] [20; 21]) [22; 24] [21] 22)
    as [Hs _].
  - discriminate.
  - destruct Hs as (w' & e & E & S' & _).
    + apply sample_registrable;
        [ cbn; intuition discriminate | cbn; intuition discriminate
        | cbn; intros r [<- | [<- | []]]; auto ].
    + left. apply registered_In. cbn. auto 10.
    + exists w', e. split; assumption.
Defined.

Lemma clear_disposes_and_empties_witness :
  exists w' mid,
    clear_strategies (sample_world STOPPED [10; 11] [20; 21]) = (w', Return tt)
    /\ _strategies (self w') = []
    /\ _actors (self w') = [10; 11]
    /\ calls_in mid = [EvCall 20 DISPOSE; EvCall 21 DISPOSE]
    /\ disposed w' 20 /\ disposed w' 21.
Proof.
  destruct (clear_disposes_and_empties (sample_world STOPPED [10; 11] [20; 21]))
    as [Hs _].
  - discriminate.
  - destruct Hs as (w' & mid & E & S' & A' & _ & C & D).
    + intros r [<- | [<- | []]]; reflexivity.
    + exists w', mid. repeat split; try assumption; apply D; cbn; auto.
Defined.

(** A strategy (30) whose dispose hook raises. *)
Definition stubborn_units : Ref -> Component.Component :=
  fun r =>
    match r with
    | 30 => sample_unit "Stubborn-001" STOPPED
              (fun v => match v with DISPOSE => true | _ => false end)
    | _ => sample_units r
    end.

Definition stubborn_world : World :=
  mkWorld (sample_trader STOPPED [10; 11] [20; 30; 21]) stubborn_units
          (fun _ => TestClock) 100
          (mkCache ["O-1"; "O-2"] ["P-1"] [("SIM", "SIM-001")])
          ["exposure"] ["returns"] [].

Example failed_clear_example :
  let w' := fst (clear_strategies stubborn_world) in
  snd (clear_strategies stubborn_world) = Raise (HookError 30 DISPOSE)
  /\ _strategies (self w') = [20; 30; 21]
  /\ Component.state (units w' 20) = DISPOSED
  /\ Component.state (units w' 21) = STOPPED.
Proof. repeat split. Qed.

Lemma failed_clear_keeps_registry_witness :
  exists w' e,
    clear_strategies stubborn_world = (w', Raise e)
    /\ self w' = self stubborn_world.
Proof.
  destruct (failed_clear_keeps_registry stubborn_world) as [Hs _].
  - discriminate.
  - apply Hs. exists 30. split; [cbn; auto|]. split; [discriminate|].
    reflexivity.
Defined.

Lemma dispose_hook_cascade_witness :
  exists w' mid,
    _dispose (sample_world STOPPED [10; 11] [20; 21]) = (w', Return tt)
    /\ calls_in mid = [EvCall 10 DISPOSE; EvCall 11 DISPOSE;
                       EvCall 20 DISPOSE; EvCall 21 DISPOSE]
    /\ disposed w' 10
    /\ _strategies (self w') = [20; 21].
Proof.
  destruct (dispose_hook_cascade (sample_world STOPPED [10; 11] [20; 21]))
    as (w' & mid & E & _ & C & _ & D & S').
  - intros r Hin. now apply sample_hooks_never.
  - exists w', mid. repeat split; try assumption.
    + apply D. cbn. auto.
    + now rewrite S'.
Defined.

Lemma start_hook_cascade_witness :
  exists w' mid,
    _start (sample_world INITIALIZED [10; 11] [20; 21]) = (w', Return tt)
    /\ calls_in mid = [EvCall 10 START; EvCall 11 START;
                       EvCall 20 START; EvCall 21 START]
    /\ Forall from_unit mid.
Proof.
  destruct (start_hook_cascade (sample_world INITIALIZED [10; 11] [20; 21]))
    as (w' & mid & E & _ & C & F & _).
  - discriminate.
  - intros r Hin. now apply sample_hooks_never.
  - exists w', mid. repeat split; assumption.
Defined.

Lemma stop_hook_twice_witness :
  exists w1 w2,
    _stop (sample_world RUNNING [10; 11] [20; 21]) = (w1, Return tt)
    /\ _stop w1 = (w2, Return tt)
    /\ trace w2 = trace w1 ++ map already_stopped [10; 11; 20; 21].
Proof.
  destruct (stop_hook_twice (sample_world RUNNING [10; 11] [20; 21]))
    as (w1 & w2 & E1 & E2 & T & _).
  - intros r Hin _. now apply sample_hooks_never.
  - exists w1, w2. repeat split; assumption.
Defined.

Lemma sample_22_admissible (st : ComponentState) (actors strategies : list Ref) :
  admissible (sample_world st actors strategies) 22.
Proof. split; discriminate. Qed.

Lemma add_twice_raises_witness :
  exists w1,
    add_strategy 22 (sample_world INITIALIZED [10; 11] [20; 21])
    = (w1, Return tt)
    /\ add_strategy 22 w1 = (w1, Raise (KeyError "strategy" "_strategies")).
Proof.
  destruct (add_twice_raises (sample_world INITIALIZED [10; 11] [20; 21]) 22)
    as [Hs _].
  - discriminate.
  - apply sample_22_admissible.
  - apply Hs. apply contains_not_registered. reflexivity.
Defined.

Lemma ids_after_add_witness :
  exists w1 ids ids1,
    add_strategy 22 (sample_world INITIALIZED [10; 11] [20; 21])
    = (w1, Return tt)
    /\ strategy_ids (sample_world INITIALIZED [10; 11] [20; 21])
       = (sample_world INITIALIZED [10; 11] [20; 21], Return ids)
    /\ strategy_ids w1 = (w1, Return ids1)
    /\ Permutation ids1 ("Momentum-001" :: ids)
    /\ snd (actor_ids w1)
       = snd (actor_ids (sample_world INITIALIZED [10; 11] [20; 21])).
Proof.
  destruct (ids_after_add (sample_world INITIALIZED [10; 11] [20; 21]) 22)
    as [Hs _].
  - discriminate.
  - apply sample_22_admissible.
  - apply Hs. apply contains_not_registered. reflexivity.
Defined.

Example strategy_states_example :
  snd (strategy_states (sample_world INITIALIZED [10; 11] [20; 21; 22])) =
    Return [("EMACross-002", "RUNNING"); ("EMACross-001", "STOPPED");
            ("Momentum-001", "INITIALIZED")].
Proof. reflexivity. Qed.

Lemma states_list_each_unit_witness :
  exists d,
    strategy_states (sample_world INITIALIZED [10; 11] [20; 21])
    = (sample_world INITIALIZED [10; 11] [20; 21], Return d)
    /\ Dict.keys d = ["EMACross-002"; "EMACross-001"]
    /\ Dict.get "EMACross-001" d = Some "STOPPED".
Proof.
  destruct (states_list_each_unit (sample_world INITIALIZED [10; 11] [20; 21]))
    as [Hs _].
  destruct Hs as (d & E & K & G).
  - apply sample_registries_unique.
  - exists d. split; [exact E|]. split; [exact K|].
    apply (G 21). cbn. auto.
Defined.

(** ** Binance requests *)

(** A GTC limit order (the time in force is one the builder does not
    name) with prices rendered as they are. *)
Definition sample_to_str (tif : Binance.TimeInForce.t) : string :=
  match tif with
  | Binance.TimeInForce.DAY => "DAY"
  | Binance.TimeInForce.GTD => "GTD"
  | Binance.TimeInForce.Other _ => "GTC"
  end.

Definition sample_order (type : Binance.OrderType.t) (post_only hidden : bool)
    : Binance.Order string :=
  Binance.mkOrder string "O-20210101-001" type Binance.OrderSide.SELL
    (Binance.TimeInForce.Other 0) post_only hidden "50000.00".

Example build_limit_example :
  Binance.build string (fun px => px) sample_to_str
    (Some (sample_order Binance.OrderType.LIMIT false false))
  = Binance.Return
      [("newClientOrderId", Binance.Str "O-20210101-001");
       ("recvWindow", Binance.Int 10000);
       ("type", Binance.Str "LIMIT");
       ("timeInForce", Binance.Str "GTC")].
Proof. reflexivity. Qed.

Example build_stop_example :
  Binance.build string (fun px => px) sample_to_str
    (Some (sample_order Binance.OrderType.STOP_MARKET false true))
  = Binance.Return
      [("newClientOrderId", Binance.Str "O-20210101-001");
       ("recvWindow", Binance.Int 10000);
       ("type", Binance.Str "TAKE_PROFIT");
       ("stopPrice", Binance.Str "50000.00")].
Proof. reflexivity. Qed.

Lemma build_request_keys_witness :
  In "timeInForce"
     (Dict.keys
        [("newClientOrderId", Binance.Str "O-20210101-001");
         ("recvWindow", Binance.Int 10000);
         ("type", Binance.Str "LIMIT");
         ("timeInForce", Binance.Str "GTC")])
  <-> Binance.OrderType.LIMIT = Binance.OrderType.LIMIT /\ false = false.
Proof.
  apply (build_request_keys string (fun px => px) sample_to_str
           (sample_order Binance.OrderType.LIMIT false false)).
  reflexivity.
Defined.

Lemma build_type_decodes_witness :
  Dict.get "type"
    [("newClientOrderId", Binance.Str "O-20210101-001");
     ("recvWindow", Binance.Int 10000);
     ("type", Binance.Str "TAKE_PROFIT");
     ("stopPrice", Binance.Str "50000.00")]
  = Some (Binance.Str "TAKE_PROFIT")
  <-> Binance.OrderType.STOP_MARKET = Binance.OrderType.STOP_MARKET
      /\ Binance.OrderSide.SELL = Binance.OrderSide.SELL.
Proof.
  apply (build_type_decodes string (fun px => px) sample_to_str
           (sample_order Binance.OrderType.STOP_MARKET false true)).
  reflexivity.
Defined.

Example parse_example :
  Binance.parse (fun s => negb (String.eqb s "")) string string "BTC/USDT"
    (Some [("l", "0.5"); ("z", "1.5"); ("L", "50000.00");
           ("T", "1609459200000"); ("x", "TRADE")]) (Some "fee")
  = Binance.Return
      [("symbol", Binance.PSymbol string string "BTC/USDT");
       ("fee", Binance.PFee string string "fee");
       ("fill_qty", Binance.PRaw string string "0.5");
       ("cum_qty", Binance.PRaw string string "1.5");
       ("average", Binance.PRaw string string "50000.00");
       ("timestamp", Binance.PRaw string string "1609459200000")].
Proof. reflexivity. Qed.

Example parse_missing_key_example :
  Binance.parse (fun s => negb (String.eqb s "")) string string "BTC/USDT"
    (Some [("l", "0.5"); ("z", "1.5"); ("T", "1609459200000")]) (Some "fee")
  = Binance.Raise (Binance.KeyError "L").
Proof. reflexivity. Qed.

(** A [fee] that is [None] is reported before the missing key. *)
Example parse_fee_None_example :
  Binance.parse (fun s => negb (String.eqb s "")) string string "BTC/USDT"
    (Some [("l", "0.5"); ("z", "1.5"); ("T", "1609459200000")]) None
  = Binance.Raise (Binance.ConditionFailed "fee").
Proof. reflexivity. Qed.

(** ** Further instances *)

Lemma stop_hook_failure_aborts_witness :
  exists w',
    _stop (sample_world RUNNING [11; 10; 23] [20])
    = (w', Raise (HookError 23 STOP))
    /\ trace w' = [already_stopped 11; EvCall 10 STOP; EvHook 10 STOP;
                   EvCall 23 STOP; EvHook 23 STOP]
    /\ Component.state (units w' 23) = STOPPING
    /\ running w' 20 = true.
Proof.
  destruct (stop_hook_failure_aborts (sample_world RUNNING [11; 10; 23] [20])
              [11; 10] [20] 23) as (w' & E & T & St & R & _).
  - reflexivity.
  - intros q [<- | [<- | []]] _; reflexivity.
  - cbn. intuition discriminate.
  - reflexivity.
  - reflexivity.
  - exists w'. repeat split; try assumption.
    rewrite R; [reflexivity | cbn; intuition discriminate | discriminate].
Defined.

Lemma add_rejection_reason_witness :
  add_strategy 20 (sample_world STOPPED [10; 11] [20; 21])
  = (sample_world STOPPED [10; 11] [20; 21],
     Raise (KeyError "strategy" "_strategies"))
  /\ add_actor 20 (sample_world STOPPED [10; 11] [20; 21])
     = (sample_world STOPPED [10; 11] [20; 21],
        Raise (ValueError "actor.state was RUNNING")).
Proof.
  destruct (add_rejection_reason (sample_world STOPPED [10; 11] [20; 21]) 20)
    as (Hk & _ & _ & _ & Hr & _).
  split.
  - apply Hk. apply registered_In. cbn. auto.
  - apply Hr; [apply contains_not_registered|]; reflexivity.
Defined.

Lemma ids_listing_ignores_order_witness :
  snd (strategy_ids (sample_world STOPPED [10; 11] [20; 21; 22]))
  = snd (strategy_ids (sample_world STOPPED [] [22; 20; 21])).
Proof.
  destruct (ids_listing_ignores_order
              (sample_world STOPPED [10; 11] [20; 21; 22])
              (sample_world STOPPED [] [22; 20; 21])) as [Hs _].
  apply Hs. cbn.
  apply Permutation_sym, (Permutation_cons_app ["EMACross-002"; "EMACross-001"] []).
  reflexivity.
Defined.
